(** * blocks-on-chain: a shallow embedding of [core.py]

    The definitions come first, in the order of the source file:

    - [SHA256]   [hashlib.sha256] (FIPS 180-4) on byte lists, with [hexdigest];
    - [Py]       the Python built-ins the code relies on ([str] of an [int],
                 [repr] of a [str] and of [None], slicing [s[:d]], ['0' * d],
                 [str.encode('utf-8')]);
    - [Transaction], [Block], [Blockchain]: the three classes, with the
      methods under their source names;
    - [Client], [Tamper], [Spec], [Sample]: the calls of a client, the
      attribute assignments of the tamper scenarios, the vocabulary of the
      properties, and the ledgers used as examples;
    - [Scenario], [Domain]: further assignments and vocabulary, and the
      values within the limits of the built-ins, for X1 to X15.

    The lemmas and the properties C1 to C10 follow, then the further
    properties X1 to X15 of the same code.

    Values.  A Python [int] is a [Z].  A Python [str] is a [string] whose
    characters are read as the code points 0..255; an address (sender,
    receiver, miner) is [None] or a [str], hence an [option string].

    Objects.  The code mutates three kinds of objects: a [Block] under
    [mine_block], the list [pending_transactions] under [add_transaction],
    and the list [chain] under [add_block].  The blocks of a chain, their
    transaction lists and their transactions are taken to be distinct
    objects, which is what the methods of the ledger build:
    [mine_pending_transactions] hands the pending list itself to the new
    block and then rebinds [pending_transactions] to a freshly built list,
    so no later [add_transaction] reaches a list held by a block of the
    chain.  Blocks and ledgers are therefore modelled as values, a method
    that mutates [self] returns the new value of [self], and an assignment
    to an attribute of a block of the chain changes that block alone.
    A client that hands [add_block] a block built on the pending list of
    the ledger itself gives up this separation: the in-place append of a
    later [add_transaction] then reaches that block.  [add_block] and
    [mine_pending_transactions] assign to no object that existed before
    the call, so the properties X7 and X13, which speak of a ledger in any
    state, are stated for these two methods.

    Domain.  The model has the values on which the built-ins return.
    CPython refuses [str] of an integer of more than 4300 digits
    ([ValueError]), a repetition count or slice bound outside the index
    range ([OverflowError], and [MemoryError] below it), and the encoding of
    a lone surrogate; where a property needs such a call to return, the
    hypothesis is stated with the predicates of [Domain].

    Effects.  The clock ([time.time()]) is an input of
    [mine_pending_transactions].  The unbounded loop of [mine_block] takes a
    bound on the number of iterations and reports [OutOfFuel] when it is
    reached.  An [IndexError] is a [Raises].  The diagnostics printed by
    [is_chain_valid] are part of its result; the messages of the two mining
    methods (elapsed wall-clock time, the mined hash) are not modelled. *)

From Stdlib Require Import ZArith Lia Ascii DecimalString DecimalZ.
From stdpp Require Import base list strings.

Local Open Scope Z_scope.

(* ===================================================================== *)
(** ** hashlib.sha256 *)
(* ===================================================================== *)

Module SHA256.

(** Bytes are integers in 0..255, words are integers in 0..2^32-1. *)
Definition bytes := list Z.

Definition mask32 : Z := 0xFFFFFFFF.
Definition add32 (x y : Z) : Z := Z.land (x + y) mask32.
Definition rotr (n x : Z) : Z :=
  Z.lor (Z.shiftr x n) (Z.land (Z.shiftl x (32 - n)) mask32).
Definition shr (n x : Z) : Z := Z.shiftr x n.
Definition not32 (x : Z) : Z := Z.lxor x mask32.

Definition Ch (x y z : Z) : Z := Z.lxor (Z.land x y) (Z.land (not32 x) z).
Definition Maj (x y z : Z) : Z :=
  Z.lxor (Z.lxor (Z.land x y) (Z.land x z)) (Z.land y z).
Definition Sigma0 (x : Z) : Z := Z.lxor (Z.lxor (rotr 2 x) (rotr 13 x)) (rotr 22 x).
Definition Sigma1 (x : Z) : Z := Z.lxor (Z.lxor (rotr 6 x) (rotr 11 x)) (rotr 25 x).
Definition sigma0 (x : Z) : Z := Z.lxor (Z.lxor (rotr 7 x) (rotr 18 x)) (shr 3 x).
Definition sigma1 (x : Z) : Z := Z.lxor (Z.lxor (rotr 17 x) (rotr 19 x)) (shr 10 x).

(** The first 32 bits of the fractional parts of the cube roots of the
    first 64 primes. *)
Definition K : list Z :=
  [
    1116352408; 1899447441; 3049323471; 3921009573;
    961987163; 1508970993; 2453635748; 2870763221;
    3624381080; 310598401; 607225278; 1426881987;
    1925078388; 2162078206; 2614888103; 3248222580;
    3835390401; 4022224774; 264347078; 604807628;
    770255983; 1249150122; 1555081692; 1996064986;
    2554220882; 2821834349; 2952996808; 3210313671;
    3336571891; 3584528711; 113926993; 338241895;
    666307205; 773529912; 1294757372; 1396182291;
    1695183700; 1986661051; 2177026350; 2456956037;
    2730485921; 2820302411; 3259730800; 3345764771;
    3516065817; 3600352804; 4094571909; 275423344;
    430227734; 506948616; 659060556; 883997877;
    958139571; 1322822218; 1537002063; 1747873779;
    1955562222; 2024104815; 2227730452; 2361852424;
    2428436474; 2756734187; 3204031479; 3329325298 ].

(** The eight working words. *)
Record state : Type := State {
  sa : Z; sb : Z; sc : Z; sd : Z; se : Z; sf : Z; sg : Z; sh : Z }.

(** The first 32 bits of the fractional parts of the square roots of the
    first 8 primes. *)
Definition H0 : state :=
  State 1779033703 3144134277 1013904242 2773480762
        1359893119 2600822924 528734635 1541459225.

(** Padding: the byte 0x80, zero bytes up to 56 modulo 64, then the
    message length in bits as a 64-bit big-endian integer. *)
Definition be_bytes (n : nat) (x : Z) : bytes :=
  map (fun i => (x / 256 ^ Z.of_nat i) mod 256) (rev (seq 0 n)).

Definition pad (msg : bytes) : bytes :=
  let len := Z.of_nat (length msg) in
  msg ++ [128] ++ repeat 0 (Z.to_nat ((55 - len) mod 64))
      ++ be_bytes 8 ((8 * len) mod 2 ^ 64).

Fixpoint words_of_bytes (bs : bytes) : list Z :=
  match bs with
  | b0 :: b1 :: b2 :: b3 :: rest =>
      (b0 * 16777216 + b1 * 65536 + b2 * 256 + b3) :: words_of_bytes rest
  | _ => []
  end.

Fixpoint blocks_of_words (fuel : nat) (ws : list Z) : list (list Z) :=
  match fuel, ws with
  | S fuel', _ :: _ => take 16 ws :: blocks_of_words fuel' (drop 16 ws)
  | _, _ => []
  end.

(** Message schedule.  [rw] holds the words computed so far, newest
    first, so that W[t-2], W[t-7], W[t-15], W[t-16] sit at the positions
    1, 6, 14 and 15. *)
Fixpoint extend (n : nat) (rw : list Z) : list Z :=
  match n with
  | O => rw
  | S n' =>
      let w := add32 (add32 (add32 (sigma1 (nth 1 rw 0)) (nth 6 rw 0))
                            (sigma0 (nth 14 rw 0))) (nth 15 rw 0) in
      extend n' (w :: rw)
  end.

Definition schedule (block : list Z) : list Z := rev (extend 48 (rev block)).

Definition round (s : state) (kw : Z * Z) : state :=
  let '(k, w) := kw in
  let t1 := add32 (add32 (add32 (add32 (sh s) (Sigma1 (se s)))
                                (Ch (se s) (sf s) (sg s))) k) w in
  let t2 := add32 (Sigma0 (sa s)) (Maj (sa s) (sb s) (sc s)) in
  State (add32 t1 t2) (sa s) (sb s) (sc s) (add32 (sd s) t1) (se s) (sf s) (sg s).

Definition compress (h : state) (block : list Z) : state :=
  let s := fold_left round (combine K (schedule block)) h in
  State (add32 (sa h) (sa s)) (add32 (sb h) (sb s))
        (add32 (sc h) (sc s)) (add32 (sd h) (sd s))
        (add32 (se h) (se s)) (add32 (sf h) (sf s))
        (add32 (sg h) (sg s)) (add32 (sh h) (sh s)).

Definition digest_state (msg : bytes) : state :=
  let ws := words_of_bytes (pad msg) in
  fold_left compress (blocks_of_words (length ws) ws) H0.

(** The digest as one 256-bit big-endian number. *)
Definition digest_number (s : state) : Z :=
  sa s * 2 ^ 224 + sb s * 2 ^ 192 + sc s * 2 ^ 160 + sd s * 2 ^ 128
  + se s * 2 ^ 96 + sf s * 2 ^ 64 + sg s * 2 ^ 32 + sh s.

Definition digest (msg : bytes) : Z := digest_number (digest_state msg).

Definition hex_digit (d : Z) : ascii :=
  Ascii.ascii_of_N (Z.to_N (if d <? 10 then 48 + d else 87 + d)).

(** [n] lowercase hexadecimal digits of [x], most significant first. *)
Fixpoint to_hex (n : nat) (x : Z) (acc : string) : string :=
  match n with
  | O => acc
  | S n' => to_hex n' (x / 16) (String (hex_digit (x mod 16)) acc)
  end.

(** [sha.hexdigest()] after [sha.update(msg)] on a fresh [sha256()]. *)
Definition hexdigest (msg : bytes) : string := to_hex 64 (digest msg) EmptyString.



End SHA256.

(* ===================================================================== *)
(** ** Python built-ins *)
(* ===================================================================== *)

Module Py.

(** [str(n)] for an [int]: decimal digits, a leading [-] when negative. *)
Definition str_int (n : Z) : string := NilEmpty.string_of_int (Z.to_int n).

Definition squote : ascii := "'"%char.
Definition dquote : ascii := "034"%char.
Definition backslash : ascii := "\"%char.

Fixpoint contains (c : ascii) (s : string) : bool :=
  match s with
  | EmptyString => false
  | String c' s' => Ascii.eqb c c' || contains c s'
  end.

Definition hex2 (n : Z) : string :=
  String (SHA256.hex_digit (n / 16)) (String (SHA256.hex_digit (n mod 16)) EmptyString).

(** One character of [repr(s)], inside the quotes [quote].  Code points
    below 256 that [str.isprintable] rejects are the C0 and C1 controls,
    DEL, the no-break space U+00A0 and the soft hyphen U+00AD. *)
Definition repr_char (quote c : ascii) : string :=
  let n := Z.of_N (N_of_ascii c) in
  if Ascii.eqb c quote || Ascii.eqb c backslash then String backslash (String c EmptyString)
  else if n =? 9 then "\t"
  else if n =? 10 then "\n"
  else if n =? 13 then "\r"
  else if (n <? 32) || (n =? 127) then "\x" +:+ hex2 n
  else if n <? 127 then String c EmptyString
  else if (n <=? 160) || (n =? 173) then "\x" +:+ hex2 n
  else String c EmptyString.

Fixpoint repr_chars (quote : ascii) (s : string) : string :=
  match s with
  | EmptyString => EmptyString
  | String c s' => repr_char quote c +:+ repr_chars quote s'
  end.

(** [repr(s)] for a [str]: double quotes when [s] holds a single quote and
    no double quote, single quotes otherwise. *)
Definition repr_str (s : string) : string :=
  let quote := if contains squote s && negb (contains dquote s) then dquote else squote in
  String quote (repr_chars quote s +:+ String quote EmptyString).

(** [repr] of [None] or of a [str]. *)
Definition repr_opt_str (v : option string) : string :=
  match v with
  | None => "None"
  | Some s => repr_str s
  end.

(** [', '.join(items)] *)
Fixpoint join_comma (items : list string) : string :=
  match items with
  | [] => EmptyString
  | [x] => x
  | x :: rest => x +:+ ", " +:+ join_comma rest
  end.

(** [str(l)] for a list whose items have the given [repr]s. *)
Definition str_list (reprs : list string) : string := "[" +:+ join_comma reprs +:+ "]".

Fixpoint take_str (n : nat) (s : string) : string :=
  match n, s with
  | S n', String c s' => String c (take_str n' s')
  | _, _ => EmptyString
  end.

(** [s[:d]]: a negative [d] counts from the end, and every bound is
    clipped to the string. *)
Definition slice_to (s : string) (d : Z) : string :=
  if d <? 0 then take_str (String.length s - Z.to_nat (- d)) s
  else take_str (Z.to_nat d) s.

Fixpoint repeat_str (n : nat) (s : string) : string :=
  match n with
  | O => EmptyString
  | S n' => s +:+ repeat_str n' s
  end.

(** [s * d]: empty when [d <= 0]. *)
Definition mul_str (s : string) (d : Z) : string := repeat_str (Z.to_nat d) s.

Definition encode_char (c : ascii) : SHA256.bytes :=
  let n := Z.of_N (N_of_ascii c) in
  if n <? 128 then [n] else [192 + n / 64; 128 + n mod 64].

(** [s.encode('utf-8')] *)
Fixpoint encode_utf8 (s : string) : SHA256.bytes :=
  match s with
  | EmptyString => []
  | String c s' => encode_char c ++ encode_utf8 s'
  end.

(** [hashlib.sha256(); update(s.encode('utf-8')); hexdigest()] *)
Definition sha256_hex (s : string) : string := SHA256.hexdigest (encode_utf8 s).

End Py.

(* ===================================================================== *)
(** ** Results of calls *)
(* ===================================================================== *)

Inductive exn : Type := IndexError.

Inductive result (A : Type) : Type :=
  | Returns (a : A)
  | Raises (e : exn)
  | OutOfFuel.
Arguments Returns {A} a.
Arguments Raises {A} e.
Arguments OutOfFuel {A}.

#[global] Instance result_ret : MRet result := fun A a => Returns a.
#[global] Instance result_bind : MBind result := fun A B f m =>
  match m with
  | Returns a => f a
  | Raises e => Raises e
  | OutOfFuel => OutOfFuel
  end.

(** [l[i]] for an index [i >= 0]. *)
Definition index {A : Type} (l : list A) (i : nat) : result A :=
  match l !! i with
  | Some x => Returns x
  | None => Raises IndexError
  end.

(* ===================================================================== *)
(** ** class Transaction *)
(* ===================================================================== *)

Module Transaction.

Record t : Type := __init__ {
  sender : option string;
  receiver : option string;
  amount : Z }.

(** [repr(self.__dict__)]: the attributes in the order [__init__] sets them. *)
Definition repr_dict (self : t) : string :=
  "{'sender': " +:+ Py.repr_opt_str (sender self)
  +:+ ", 'receiver': " +:+ Py.repr_opt_str (receiver self)
  +:+ ", 'amount': " +:+ Py.str_int (amount self) +:+ "}".

Definition set_amount (self : t) (v : Z) : t :=
  {| sender := sender self; receiver := receiver self; amount := v |}.

#[global] Instance eq_dec : EqDecision t.
Proof. solve_decision. Defined.

End Transaction.

(* ===================================================================== *)
(** ** class Block *)
(* ===================================================================== *)

Module Block.

Record t : Type := Build {
  previous_hash : string;
  transactions : list Transaction.t;
  timestamp : Z;
  nonce : Z;
  hash : string }.

Definition set_previous_hash (self : t) (v : string) : t :=
  Build v (transactions self) (timestamp self) (nonce self) (hash self).
Definition set_transactions (self : t) (v : list Transaction.t) : t :=
  Build (previous_hash self) v (timestamp self) (nonce self) (hash self).
Definition set_timestamp (self : t) (v : Z) : t :=
  Build (previous_hash self) (transactions self) v (nonce self) (hash self).
Definition set_nonce (self : t) (v : Z) : t :=
  Build (previous_hash self) (transactions self) (timestamp self) v (hash self).
Definition set_hash (self : t) (v : string) : t :=
  Build (previous_hash self) (transactions self) (timestamp self) (nonce self) v.

(** The string [data] of [calculate_hash]. *)
Definition data (self : t) : string :=
  previous_hash self +:+ Py.str_int (timestamp self) +:+ Py.str_int (nonce self)
  +:+ Py.str_list (map Transaction.repr_dict (transactions self)).

Definition calculate_hash (self : t) : string := Py.sha256_hex (data self).

(** The constructor assigns the four arguments, then the hash computed
    from them. *)
Definition __init__ (previous_hash : string) (transactions : list Transaction.t)
    (timestamp : Z) (nonce : Z) : t :=
  let self := Build previous_hash transactions timestamp nonce EmptyString in
  set_hash self (calculate_hash self).

(** [mine_block]: [fuel] bounds the number of times the loop body runs. *)
Fixpoint mine_block (fuel : nat) (self : t) (difficulty : Z) : result t :=
  let target := Py.mul_str "0" difficulty in
  if bool_decide (Py.slice_to (hash self) difficulty ≠ target) then
    match fuel with
    | O => OutOfFuel
    | S fuel' =>
        let self := set_nonce self (nonce self + 1) in
        let self := set_hash self (calculate_hash self) in
        mine_block fuel' self difficulty
    end
  else Returns self.

End Block.

(* ===================================================================== *)
(** ** class Blockchain *)
(* ===================================================================== *)

(** What a run of [is_chain_valid] did: it fell off the loop, or it
    returned from iteration [i] of the loop at the first or at the second
    test. *)
Inductive verdict : Type :=
  | Valid
  | HashMismatch (i : nat)
  | LinkMismatch (i : nat).

#[global] Instance verdict_eq_dec : EqDecision verdict.
Proof. solve_decision. Defined.

(** The value returned. *)
Definition verdict_value (v : verdict) : bool :=
  match v with
  | Valid => true
  | HashMismatch _ | LinkMismatch _ => false
  end.

(** The lines printed. *)
Definition verdict_output (v : verdict) : list string :=
  match v with
  | Valid => []
  | HashMismatch _ => ["Current block hash does not match"]
  | LinkMismatch _ => ["Previous block hash does not match"]
  end.

Module Blockchain.

Record t : Type := Build {
  chain : list Block.t;
  pending_transactions : list Transaction.t;
  difficulty : Z }.

Definition set_chain (self : t) (v : list Block.t) : t :=
  Build v (pending_transactions self) (difficulty self).
Definition set_pending_transactions (self : t) (v : list Transaction.t) : t :=
  Build (chain self) v (difficulty self).

Definition create_genesis_block : Block.t := Block.__init__ "0" [] 0 0.

Definition __init__ (difficulty : Z) : t :=
  Build [create_genesis_block] [] difficulty.

(** The default of the [difficulty] parameter. *)
Definition default_difficulty : Z := 2.

Definition add_block (self : t) (block : Block.t) : t :=
  set_chain self (chain self ++ [block]).

(** [self.chain[-1]] *)
Definition get_last_block (self : t) : result Block.t :=
  match last (chain self) with
  | Some block => Returns block
  | None => Raises IndexError
  end.

(** [now] is the value of [int(time.time())]. *)
Definition mine_pending_transactions (fuel : nat) (self : t)
    (miner_address : option string) (now : Z) : result t :=
  let timestamp := now in
  last_block ← get_last_block self;
  let block := Block.__init__ (Block.hash last_block) (pending_transactions self) timestamp 0 in
  block ← Block.mine_block fuel block (difficulty self);
  let self := add_block self block in
  mret (set_pending_transactions self [Transaction.__init__ None miner_address 1]).

Definition add_transaction (self : t) (transaction : Transaction.t) : t :=
  set_pending_transactions self (pending_transactions self ++ [transaction]).

(** The body of the inner loop of [get_balance]. *)
Definition get_balance_step (address : option string) (balance : Z)
    (transaction : Transaction.t) : Z :=
  let balance :=
    if bool_decide (Transaction.sender transaction = address)
    then balance - Transaction.amount transaction else balance in
  if bool_decide (Transaction.receiver transaction = address)
  then balance + Transaction.amount transaction else balance.

Definition get_balance (self : t) (address : option string) : Z :=
  fold_left (fun balance block =>
               fold_left (get_balance_step address) (Block.transactions block) balance)
            (chain self) 0.

(** The loop of [is_chain_valid] over the indices [range]. *)
Fixpoint is_chain_valid_loop (chain : list Block.t) (range : list nat) : result verdict :=
  match range with
  | [] => Returns Valid
  | i :: range' =>
      current_block ← index chain i;
      previous_block ← index chain (i - 1);
      if bool_decide (Block.hash current_block ≠ Block.calculate_hash current_block)
      then Returns (HashMismatch i)
      else if bool_decide (Block.hash previous_block ≠ Block.previous_hash current_block)
      then Returns (LinkMismatch i)
      else is_chain_valid_loop chain range'
  end.

(** [range(1, len(self.chain))] *)
Definition is_chain_valid_range (self : t) : list nat :=
  seq 1 (length (chain self) - 1).

Definition is_chain_valid_verdict (self : t) : result verdict :=
  is_chain_valid_loop (chain self) (is_chain_valid_range self).

(** [is_chain_valid]: the lines printed and the value returned. *)
Definition is_chain_valid (self : t) : result (list string * bool) :=
  v ← is_chain_valid_verdict self;
  mret (verdict_output v, verdict_value v).

End Blockchain.


(* ===================================================================== *)
(** ** Clients of a ledger *)
(* ===================================================================== *)

(** The calls a client makes on a ledger after constructing it, as the
    demonstration driver does. *)
Module Client.

Inductive call : Type :=
  | AddTransaction (transaction : Transaction.t)
  | AddBlock (block : Block.t)
  | MinePendingTransactions (miner_address : option string) (now : Z).

Definition is_mine (c : call) : bool :=
  match c with
  | MinePendingTransactions _ _ => true
  | _ => false
  end.

Definition is_add_block (c : call) : bool :=
  match c with
  | AddBlock _ => true
  | _ => false
  end.

Definition do_call (fuel : nat) (self : Blockchain.t) (c : call) : result Blockchain.t :=
  match c with
  | AddTransaction transaction => mret (Blockchain.add_transaction self transaction)
  | AddBlock block => mret (Blockchain.add_block self block)
  | MinePendingTransactions miner_address now =>
      Blockchain.mine_pending_transactions fuel self miner_address now
  end.

(** The calls in sequence; [fuel] bounds each mining loop. *)
Fixpoint do_calls (fuel : nat) (self : Blockchain.t) (calls : list call) : result Blockchain.t :=
  match calls with
  | [] => mret self
  | c :: calls' => self ← do_call fuel self c; do_calls fuel self calls'
  end.

(** The number of [mine_pending_transactions] calls. *)
Definition mining_calls (calls : list call) : nat := length (filter is_mine calls).

End Client.

(** Assignments to attributes of objects held by a ledger, made from
    outside the three classes.  The indices are those of existing items. *)
Module Tamper.

(** [self.chain[k].previous_hash = v] *)
Definition set_previous_hash (self : Blockchain.t) (k : nat) (v : string) : Blockchain.t :=
  Blockchain.set_chain self
    (alter (fun block => Block.set_previous_hash block v) k (Blockchain.chain self)).

(** [self.chain[i].transactions[j].amount = v] *)
Definition set_amount (self : Blockchain.t) (i j : nat) (v : Z) : Blockchain.t :=
  Blockchain.set_chain self
    (alter (fun block =>
              Block.set_transactions block
                (alter (fun transaction => Transaction.set_amount transaction v) j
                       (Block.transactions block)))
           i (Blockchain.chain self)).

(** Assignments to [previous_hash], [transactions], [timestamp] and [nonce]
    of [self.chain[0]]; its [hash] is left as it is. *)
Definition set_genesis (self : Blockchain.t) (previous_hash : string)
    (transactions : list Transaction.t) (timestamp nonce : Z) : Blockchain.t :=
  Blockchain.set_chain self
    (alter (fun block => Block.Build previous_hash transactions timestamp nonce (Block.hash block))
           0%nat (Blockchain.chain self)).

End Tamper.

(* ===================================================================== *)
(** ** Vocabulary of the properties *)
(* ===================================================================== *)

Module Spec.

(** Iteration [i] of the loop passes both tests. *)
Definition passes (chain : list Block.t) (i : nat) : Prop :=
  ∃ current_block previous_block,
    chain !! i = Some current_block
    ∧ chain !! (i - 1)%nat = Some previous_block
    ∧ Block.hash current_block = Block.calculate_hash current_block
    ∧ Block.hash previous_block = Block.previous_hash current_block.

(** Every block after the first is sealed by its hash and linked to its
    predecessor. *)
Definition linked (chain : list Block.t) : Prop :=
  ∀ i, (1 ≤ i < length chain)%nat → passes chain i.

(** The balance as a sum: every transaction of every block, in order,
    counts [+amount] when its receiver is the address and [-amount] when
    its sender is. *)
Definition contribution (address : option string) (transaction : Transaction.t) : Z :=
  (if bool_decide (Transaction.receiver transaction = address)
   then Transaction.amount transaction else 0)
  - (if bool_decide (Transaction.sender transaction = address)
     then Transaction.amount transaction else 0).

Definition all_transactions (self : Blockchain.t) : list Transaction.t :=
  concat (map Block.transactions (Blockchain.chain self)).

Definition sum_Z (l : list Z) : Z := foldr Z.add 0 l.

Definition balance_sum (self : Blockchain.t) (address : option string) : Z :=
  sum_Z (map (contribution address) (all_transactions self)).

(** The address occurs in no transaction of the chain. *)
Definition unused (self : Blockchain.t) (address : option string) : Prop :=
  ∀ transaction, transaction ∈ all_transactions self →
    Transaction.sender transaction ≠ address ∧ Transaction.receiver transaction ≠ address.


End Spec.

(* ===================================================================== *)
(** ** Sample ledgers *)
(* ===================================================================== *)

Module Sample.

(** A ledger of difficulty 0 after one [mine_pending_transactions] at time 0
    on an empty pool. *)
Definition second_block : Block.t :=
  Block.__init__ (Block.hash Blockchain.create_genesis_block) [] 0 0.

Definition two_blocks : Blockchain.t :=
  Blockchain.Build [Blockchain.create_genesis_block; second_block]
                   [Transaction.__init__ None (Some "miner1") 1] 0.

(** The genesis block as [mine_block] returns it at difficulty 1. *)
Definition sealed_genesis : Block.t :=
  Block.Build "0" [] 0 11
    "0bd6c5cce8abb72cad1c347a12f13c8d0c92fc46f805754d18b3b0bbca5e0266".

(** The calls of the demonstration driver, with the clock read at the
    given times. *)
Definition driver_calls : list Client.call :=
  [ Client.AddTransaction (Transaction.__init__ (Some "A") (Some "B") 100);
    Client.MinePendingTransactions (Some "miner1") 1700000000;
    Client.AddTransaction (Transaction.__init__ (Some "C") (Some "D") 10);
    Client.MinePendingTransactions (Some "miner2") 1700000060 ].

(** The ledger of difficulty 1 with the first transaction of the driver
    pending, and what the two mining calls of the driver make of it. *)
Definition before_first_mine : Blockchain.t :=
  Blockchain.add_transaction (Blockchain.__init__ 1)
    (Transaction.__init__ (Some "A") (Some "B") 100).

Definition first_mined : Block.t :=
  Block.Build "b5389816d2fa57f3e189ef78b10fe58a5159ec244b7134e310331e2ca01e494a"
    [Transaction.__init__ (Some "A") (Some "B") 100] 1700000000 11
    "068517bddece057d2c69f2f851f5d40fd1f45a93966ff0511262095538b799de".

Definition second_mined : Block.t :=
  Block.Build "068517bddece057d2c69f2f851f5d40fd1f45a93966ff0511262095538b799de"
    [Transaction.__init__ None (Some "miner1") 1;
     Transaction.__init__ (Some "C") (Some "D") 10] 1700000060 0
    "06ad1f2985ca2a4d6220f3f3e45aa01cb506468204e81b69e707986856445cec".

Definition after_first_mine : Blockchain.t :=
  Blockchain.Build [Blockchain.create_genesis_block; first_mined]
    [Transaction.__init__ None (Some "miner1") 1] 1.

Definition after_driver : Blockchain.t :=
  Blockchain.Build [Blockchain.create_genesis_block; first_mined; second_mined]
    [Transaction.__init__ None (Some "miner2") 1] 1.



End Sample.

(* ===================================================================== *)
(** ** Further scenarios *)
(* ===================================================================== *)

Module Scenario.

(** The characters [hexdigest] is made of. *)
Definition is_hex_char (c : ascii) : bool := Py.contains c "0123456789abcdef".

Fixpoint all_chars (p : ascii → bool) (s : string) : bool :=
  match s with
  | EmptyString => true
  | String c s' => p c && all_chars p s'
  end.


(** [block = self.chain[i]; block.transactions = transactions;
     block.timestamp = timestamp; block.nonce = nonce;
     block.hash = block.calculate_hash()] *)
Definition reseal (self : Blockchain.t) (i : nat) (transactions : list Transaction.t)
    (timestamp nonce : Z) : Blockchain.t :=
  Blockchain.set_chain self
    (alter (fun block => Block.__init__ (Block.previous_hash block) transactions timestamp nonce)
           i (Blockchain.chain self)).


(** Iteration [k] of the loop of [is_chain_valid] is the one that returns,
    with the verdict [v]. *)
Definition fails_with (chain : list Block.t) (k : nat) (v : verdict) : Prop :=
  match v with
  | Valid => False
  | HashMismatch i =>
      i = k ∧ ∃ current_block,
        chain !! k = Some current_block
        ∧ Block.hash current_block ≠ Block.calculate_hash current_block
  | LinkMismatch i =>
      i = k ∧ ∃ current_block previous_block,
        chain !! k = Some current_block
        ∧ chain !! (k - 1)%nat = Some previous_block
        ∧ Block.hash current_block = Block.calculate_hash current_block
        ∧ Block.hash previous_block ≠ Block.previous_hash current_block
  end.



End Scenario.

(** The values on which the built-ins of [calculate_hash] and [mine_block]
    return. *)
Module Domain.

(** [str(n)] returns: [n] has at most 4300 digits, CPython's default limit
    on the conversion of an [int]. *)
Definition str_ok (n : Z) : bool := Z.abs n <? 10 ^ 4300.

(** [s[:d]] and [s * d] for [d <= 0] return: [d] fits the index type of
    every build. *)
Definition index_ok (d : Z) : bool := (- 2 ^ 31 <=? d) && (d <? 2 ^ 31).

Definition transaction_ok (transaction : Transaction.t) : bool :=
  str_ok (Transaction.amount transaction).

(** [block.calculate_hash()] returns; the strings of the model, code
    points below 256, can all be encoded. *)
Definition block_ok (block : Block.t) : bool :=
  str_ok (Block.timestamp block) && str_ok (Block.nonce block)
  && forallb transaction_ok (Block.transactions block).

Definition ledger_ok (self : Blockchain.t) : bool :=
  forallb block_ok (Blockchain.chain self).

(** The integers a call brings to a later [calculate_hash]: the amount of
    an added transaction, the time of a mining call. *)
Definition call_ok (c : Client.call) : bool :=
  match c with
  | Client.AddTransaction transaction => transaction_ok transaction
  | Client.AddBlock _ => true
  | Client.MinePendingTransactions _ now => str_ok now
  end.

End Domain.

(* ===================================================================== *)
(** ** Facts about the Python built-ins *)
(* ===================================================================== *)

Module PyFacts.
Import Py.

Lemma app_str_nil_l (s : string) : EmptyString +:+ s = s.
Proof. reflexivity. Qed.

Lemma app_str_cons (c : ascii) (s t : string) : String c s +:+ t = String c (s +:+ t).
Proof. reflexivity. Qed.

Lemma app_str_nil_r (s : string) : s +:+ EmptyString = s.
Proof. induction s as [|c s IH]; [reflexivity | by rewrite app_str_cons, IH]. Qed.


Lemma app_str_length (s1 s2 : string) :
  String.length (s1 +:+ s2) = (String.length s1 + String.length s2)%nat.
Proof.
  induction s1 as [|c s1 IH]; [reflexivity|].
  rewrite app_str_cons. simpl. by rewrite IH.
Qed.

Lemma app_str_inv_head (s a b : string) : s +:+ a = s +:+ b → a = b.
Proof.
  induction s as [|c s IH]; [done|].
  rewrite !app_str_cons. intros [= H]. auto.
Qed.

Lemma app_str_inv_tail (s a b : string) : a +:+ s = b +:+ s → a = b.
Proof.
  revert b. induction a as [|c a IH]; intros [|c' b] H.
  - reflexivity.
  - apply (f_equal String.length) in H.
    rewrite app_str_nil_l, app_str_length in H. simpl in H. lia.
  - apply (f_equal String.length) in H.
    rewrite app_str_nil_l, app_str_length in H. simpl in H. lia.
  - rewrite !app_str_cons in H. injection H as -> H. f_equal. by apply IH.
Qed.

(** [str] is injective on integers. *)
Lemma str_int_inj (n m : Z) : str_int n = str_int m → n = m.
Proof.
  unfold str_int. intros H. apply DecimalZ.to_int_inj.
  apply (f_equal NilEmpty.int_of_string) in H.
  rewrite !NilEmpty.isi in H. by injection H.
Qed.

Lemma slice_to_0 (s : string) : slice_to s 0 = EmptyString.
Proof. reflexivity. Qed.

Lemma mul_str_0 (s : string) : mul_str s 0 = EmptyString.
Proof. reflexivity. Qed.

Lemma get_take_str (n i : nat) (s : string) :
  (i < n)%nat → String.get i (take_str n s) = String.get i s.
Proof.
  revert i s. induction n as [|n IH]; intros i s Hi; [lia|].
  destruct s as [|c s]; simpl; [reflexivity|].
  destruct i as [|i]; [reflexivity|]. apply IH. lia.
Qed.

Lemma get_repeat_str (n i : nat) (c : ascii) :
  (i < n)%nat → String.get i (repeat_str n (String c EmptyString)) = Some c.
Proof.
  revert i. induction n as [|n IH]; intros i Hi; [lia|].
  destruct i as [|i]; simpl; [reflexivity|]. apply IH. lia.
Qed.

(** When [s[:d]] is ['0' * d], the characters of [s] at the positions
    below [d] exist and are all ['0']. *)
Lemma slice_to_zeros (s : string) (d : Z) (i : nat) :
  slice_to s d = mul_str "0" d → (Z.of_nat i < d) → String.get i s = Some "0"%char.
Proof.
  unfold slice_to, mul_str. intros H Hi.
  destruct (d <? 0) eqn:Hd; [lia|].
  rewrite <- (get_take_str (Z.to_nat d)) by lia.
  rewrite H. apply get_repeat_str. lia.
Qed.

End PyFacts.

(* ===================================================================== *)
(** ** Facts about SHA-256: the digest is a 256-bit number *)
(* ===================================================================== *)

Module SHA256Facts.
Import SHA256.








Lemma to_hex_length (n : nat) (x : Z) (acc : string) :
  String.length (to_hex n x acc) = (n + String.length acc)%nat.
Proof.
  revert x acc. induction n as [|n IH]; intros x acc; simpl; [reflexivity|].
  rewrite IH. simpl. lia.
Qed.

(** [hexdigest()] is 64 characters long. *)
Lemma hexdigest_length (msg : bytes) : String.length (hexdigest msg) = 64%nat.
Proof. unfold hexdigest. by rewrite to_hex_length. Qed.

(** The test vectors of FIPS 180-4 for the empty message and for ["abc"],
    and a message of two blocks. *)
Example hexdigest_empty :
  hexdigest [] = "e3b0c44298fc1c149afbf4c8996fb92427ae41e4649b934ca495991b7852b855".
Proof. vm_compute. reflexivity. Qed.

Example hexdigest_abc :
  hexdigest [97; 98; 99]
  = "ba7816bf8f01cfea414140de5dae2223b00361a396177a9cb410ff61f20015ad".
Proof. vm_compute. reflexivity. Qed.

Example hexdigest_two_blocks :
  hexdigest (repeat 97 120)
  = "2f3d335432c70b580af0e8e1b3674a7c020d683aa5f73aaaedfdc55af904c21c".
Proof. vm_compute. reflexivity. Qed.


End SHA256Facts.

(* ===================================================================== *)
(** ** Facts about the result of calls *)
(* ===================================================================== *)

Lemma bind_Returns {A B : Type} (a : A) (f : A → result B) :
  (Returns a ≫= f) = f a.
Proof. reflexivity. Qed.

Lemma bind_Returns_inv {A B : Type} (m : result A) (f : A → result B) (b : B) :
  (m ≫= f) = Returns b → ∃ a, m = Returns a ∧ f a = Returns b.
Proof. destruct m as [a| |]; [eauto | done | done]. Qed.

Lemma index_Returns {A : Type} (l : list A) (i : nat) (x : A) :
  l !! i = Some x → index l i = Returns x.
Proof. unfold index. by intros ->. Qed.

(* ===================================================================== *)
(** ** Facts about Block *)
(* ===================================================================== *)

Module BlockFacts.
Import Block.

(** The hash is computed from the four other attributes only. *)
Lemma calculate_hash_set_hash (b : t) (h : string) :
  calculate_hash (set_hash b h) = calculate_hash b.
Proof. reflexivity. Qed.

Lemma hash_init (ph : string) (txs : list Transaction.t) (ts n : Z) :
  hash (__init__ ph txs ts n) = calculate_hash (__init__ ph txs ts n).
Proof. reflexivity. Qed.

Lemma previous_hash_init (ph : string) (txs : list Transaction.t) (ts n : Z) :
  previous_hash (__init__ ph txs ts n) = ph.
Proof. reflexivity. Qed.

Lemma mine_block_unfold (fuel : nat) (self : t) (difficulty : Z) :
  mine_block fuel self difficulty =
  if bool_decide (Py.slice_to (hash self) difficulty ≠ Py.mul_str "0" difficulty) then
    match fuel with
    | O => OutOfFuel
    | S fuel' =>
        let self := set_nonce self (nonce self + 1) in
        let self := set_hash self (calculate_hash self) in
        mine_block fuel' self difficulty
    end
  else Returns self.
Proof. destruct fuel; reflexivity. Qed.

(** What a returning [mine_block] guarantees: the loop condition is
    false, only [nonce] and [hash] were assigned, and the hash is the
    computed one if it was so on entry. *)
Lemma mine_block_Returns (fuel : nat) (b b' : t) (d : Z) :
  mine_block fuel b d = Returns b' →
  Py.slice_to (hash b') d = Py.mul_str "0" d
  ∧ previous_hash b' = previous_hash b
  ∧ transactions b' = transactions b
  ∧ timestamp b' = timestamp b
  ∧ nonce b <= nonce b'
  ∧ (hash b = calculate_hash b → hash b' = calculate_hash b').
Proof.
  revert b. induction fuel as [|fuel IH]; intros b; rewrite mine_block_unfold;
    case_bool_decide as Hcond; try done.
  - intros [= <-]. repeat split; [done | lia | done].
  - cbv zeta. intros H. apply IH in H as (H1 & H2 & H3 & H4 & H5 & H6).
    cbn [hash previous_hash transactions timestamp nonce set_hash set_nonce] in *.
    repeat split; [done.. | lia |]. intros _. by apply H6.
  - intros [= <-]. repeat split; [done | lia | done].
Qed.

(** At difficulty 0 the loop condition is false at once. *)
Lemma mine_block_difficulty_0 (fuel : nat) (b : t) : mine_block fuel b 0 = Returns b.
Proof.
  rewrite mine_block_unfold, PyFacts.slice_to_0, PyFacts.mul_str_0.
  by rewrite bool_decide_eq_false_2 by (by intros []).
Qed.

(** The string hashed for a block with two transactions, and for the
    genesis block. *)
Example data_sample :
  data (Build "ab" [Transaction.__init__ None (Some "miner1") 1;
                    Transaction.__init__ (Some "A") (Some "B\c") (-100)] 170 3 "h")
  = "ab1703[{'sender': None, 'receiver': 'miner1', 'amount': 1}, {'sender': 'A', 'receiver': 'B\\c', 'amount': -100}]".
Proof. vm_compute. reflexivity. Qed.

Example genesis_sample :
  data (__init__ "0" [] 0 0) = "000[]"
  ∧ hash (__init__ "0" [] 0 0)
    = "b5389816d2fa57f3e189ef78b10fe58a5159ec244b7134e310331e2ca01e494a".
Proof. split; vm_compute; reflexivity. Qed.

(** More fuel does not change a result. *)
Lemma mine_block_fuel_mono (fuel fuel' : nat) (b b' : t) (d : Z) :
  (fuel ≤ fuel')%nat → mine_block fuel b d = Returns b' → mine_block fuel' b d = Returns b'.
Proof.
  revert fuel' b. induction fuel as [|fuel IH]; intros fuel' b Hle;
    rewrite !(mine_block_unfold _ b); case_bool_decide; try done.
  destruct fuel' as [|fuel']; [lia|]. cbv zeta. apply IH. lia.
Qed.

End BlockFacts.

(* ===================================================================== *)
(** ** Facts about the validation loop *)
(* ===================================================================== *)

Module ChainFacts.
Import Blockchain Spec.

Lemma loop_cons_pass chain i range :
  passes chain i →
  is_chain_valid_loop chain (i :: range) = is_chain_valid_loop chain range.
Proof.
  intros (cur & prev & Hc & Hp & Hh & Hl). cbn [is_chain_valid_loop].
  rewrite (index_Returns _ _ _ Hc), bind_Returns.
  rewrite (index_Returns _ _ _ Hp), bind_Returns.
  rewrite !bool_decide_eq_false_2; [done | by intros []..].
Qed.

Lemma loop_cons_hash chain i range current_block previous_block :
  chain !! i = Some current_block →
  chain !! (i - 1)%nat = Some previous_block →
  Block.hash current_block ≠ Block.calculate_hash current_block →
  is_chain_valid_loop chain (i :: range) = Returns (HashMismatch i).
Proof.
  intros Hc Hp Hh. cbn [is_chain_valid_loop].
  rewrite (index_Returns _ _ _ Hc), bind_Returns.
  rewrite (index_Returns _ _ _ Hp), bind_Returns.
  by rewrite bool_decide_eq_true_2.
Qed.

Lemma loop_cons_link chain i range current_block previous_block :
  chain !! i = Some current_block →
  chain !! (i - 1)%nat = Some previous_block →
  Block.hash current_block = Block.calculate_hash current_block →
  Block.hash previous_block ≠ Block.previous_hash current_block →
  is_chain_valid_loop chain (i :: range) = Returns (LinkMismatch i).
Proof.
  intros Hc Hp Hh Hl. cbn [is_chain_valid_loop].
  rewrite (index_Returns _ _ _ Hc), bind_Returns.
  rewrite (index_Returns _ _ _ Hp), bind_Returns.
  rewrite bool_decide_eq_false_2 by (by intros []).
  by rewrite bool_decide_eq_true_2.
Qed.

Lemma loop_app chain range1 range2 :
  (∀ i, i ∈ range1 → passes chain i) →
  is_chain_valid_loop chain (range1 ++ range2) = is_chain_valid_loop chain range2.
Proof.
  induction range1 as [|i range1 IH]; intros H; [done|].
  rewrite <- app_comm_cons, loop_cons_pass by (apply H; left).
  apply IH. intros j Hj. apply H. by right.
Qed.

Lemma loop_Valid chain range :
  (∀ i, i ∈ range → passes chain i) → is_chain_valid_loop chain range = Returns Valid.
Proof. intros H. rewrite <- (app_nil_r range). by rewrite loop_app. Qed.

Lemma loop_Valid_inv chain range :
  is_chain_valid_loop chain range = Returns Valid → ∀ i, i ∈ range → passes chain i.
Proof.
  induction range as [|i range IH]; intros H j Hj; [by apply elem_of_nil in Hj|].
  cbn [is_chain_valid_loop] in H.
  apply bind_Returns_inv in H as (cur & Hc & H).
  apply bind_Returns_inv in H as (prev & Hp & H).
  unfold index in Hc, Hp.
  destruct (chain !! i) as [cur'|] eqn:Ec; [|done]. injection Hc as ->.
  destruct (chain !! (i - 1)%nat) as [prev'|] eqn:Ep; [|done]. injection Hp as ->.
  repeat case_bool_decide; try done.
  apply elem_of_cons in Hj as [->|Hj]; [|by apply IH].
  exists cur, prev. repeat split; try done; by apply dec_stable.
Qed.

(** The indices visited, split at [k]. *)
Lemma range_split (len k : nat) :
  (1 ≤ k < len)%nat → seq 1 (len - 1) = seq 1 (k - 1) ++ k :: seq (S k) (len - 1 - k).
Proof.
  intros Hk. replace (len - 1)%nat with ((k - 1) + S (len - 1 - k))%nat at 1 by lia.
  rewrite seq_app. cbn [seq]. by replace (1 + (k - 1))%nat with k by lia.
Qed.

Lemma elem_of_range (len i : nat) : i ∈ seq 1 (len - 1) ↔ (1 ≤ i < len)%nat.
Proof. rewrite elem_of_seq. lia. Qed.

(** [is_chain_valid] falls off the loop exactly on the linked chains. *)
Lemma verdict_Valid_iff (self : t) :
  is_chain_valid_verdict self = Returns Valid ↔ linked (chain self).
Proof.
  unfold is_chain_valid_verdict, is_chain_valid_range, linked. split.
  - intros H i Hi. apply (loop_Valid_inv _ _ H). by apply elem_of_range.
  - intros H. apply loop_Valid. intros i Hi. by apply H, elem_of_range.
Qed.

(** The loop returns from the first iteration that does not pass. *)
Lemma verdict_first_failure (self : t) (k : nat) :
  (1 ≤ k < length (chain self))%nat →
  (∀ i, (1 ≤ i < k)%nat → passes (chain self) i) →
  is_chain_valid_verdict self =
  is_chain_valid_loop (chain self) (k :: seq (S k) (length (chain self) - 1 - k)).
Proof.
  intros Hk Hbefore. unfold is_chain_valid_verdict, is_chain_valid_range.
  rewrite (range_split _ k Hk). apply loop_app.
  intros i Hi. apply Hbefore. apply elem_of_seq in Hi. lia.
Qed.

(** [is_chain_valid] always returns: no index is out of range. *)
Lemma verdict_total (self : t) : ∃ v, is_chain_valid_verdict self = Returns v.
Proof.
  unfold is_chain_valid_verdict, is_chain_valid_range.
  assert (∀ range, (∀ i, i ∈ range → (1 ≤ i < length (chain self))%nat) →
          ∃ v, is_chain_valid_loop (chain self) range = Returns v) as Hloop.
  { induction range as [|i range IH]; intros Hr; [by eexists|].
    cbn [is_chain_valid_loop].
    destruct (lookup_lt_is_Some_2 (chain self) i) as [cur Hc];
      [specialize (Hr i ltac:(left)); lia|].
    destruct (lookup_lt_is_Some_2 (chain self) (i - 1)) as [prev Hp];
      [specialize (Hr i ltac:(left)); lia|].
    rewrite (index_Returns _ _ _ Hc), bind_Returns.
    rewrite (index_Returns _ _ _ Hp), bind_Returns.
    repeat case_bool_decide; [by eexists..|].
    apply IH. intros j Hj. apply Hr. by right. }
  apply Hloop. intros i Hi. by apply elem_of_range.
Qed.

Lemma is_chain_valid_of_verdict (self : t) (v : verdict) :
  is_chain_valid_verdict self = Returns v →
  is_chain_valid self = Returns (verdict_output v, verdict_value v).
Proof. unfold is_chain_valid. by intros ->. Qed.

(** Appending a sealed block linked to the last one keeps a chain linked. *)
Lemma linked_snoc (chain : list Block.t) (last_block block : Block.t) :
  linked chain →
  last chain = Some last_block →
  Block.hash block = Block.calculate_hash block →
  Block.previous_hash block = Block.hash last_block →
  linked (chain ++ [block]).
Proof.
  intros Hlinked Hlast Hh Hp i Hi. rewrite length_app in Hi. cbn in Hi.
  destruct (decide (i < length chain)%nat) as [Hlt|Hge].
  - destruct (Hlinked i ltac:(lia)) as (cur & prev & Hc & Hpv & ?).
    exists cur, prev. split_and!; try tauto.
    + by rewrite lookup_app_l.
    + rewrite lookup_app_l; [done | lia].
  - assert (i = length chain) as -> by lia.
    exists block, last_block. split_and!; try done.
    + rewrite lookup_app_r by lia. by rewrite Nat.sub_diag.
    + rewrite lookup_app_l by lia. rewrite last_lookup in Hlast.
      by replace (length chain - 1)%nat with (pred (length chain)) by lia.
Qed.

End ChainFacts.

(* ===================================================================== *)
(** ** Block: construction and sealing *)
(* ===================================================================== *)

(** C3.  A block just constructed carries the hash computed from its
    attributes.  When [mine_block] returns on a block that carries its
    computed hash, in particular on a block just constructed, the hash
    sliced at [difficulty] is the string of zeros, so the characters at the
    positions below [difficulty] are all ['0'], and the block again carries
    the hash computed from its attributes. *)
Theorem C3_hash_after_construction_and_seal :
  (∀ previous_hash transactions timestamp nonce,
     Block.hash (Block.__init__ previous_hash transactions timestamp nonce)
     = Block.calculate_hash (Block.__init__ previous_hash transactions timestamp nonce))
  ∧ (∀ fuel B difficulty B',
       Block.hash B = Block.calculate_hash B →
       Block.mine_block fuel B difficulty = Returns B' →
       Py.slice_to (Block.hash B') difficulty = Py.mul_str "0" difficulty
       ∧ (∀ i : nat, Z.of_nat i < difficulty → String.get i (Block.hash B') = Some "0"%char)
       ∧ Block.hash B' = Block.calculate_hash B').
Proof.
  split.
  - intros. apply BlockFacts.hash_init.
  - intros fuel B d B' Hinv Hrun.
    destruct (BlockFacts.mine_block_Returns _ _ _ _ Hrun) as (Hzeros & _ & _ & _ & _ & Hhash).
    split_and!; [done | | by apply Hhash].
    intros i Hi. by apply (PyFacts.slice_to_zeros _ d).
Qed.

(** Sealing the genesis block at difficulty 1 returns after 11 iterations. *)
Lemma C3_witness :
  Block.mine_block 100 Blockchain.create_genesis_block 1 = Returns Sample.sealed_genesis
  ∧ String.get 0 (Block.hash Sample.sealed_genesis) = Some "0"%char
  ∧ Block.hash Sample.sealed_genesis = Block.calculate_hash Sample.sealed_genesis.
Proof.
  assert (Block.mine_block 100 Blockchain.create_genesis_block 1
          = Returns Sample.sealed_genesis) as Hrun by (vm_compute; reflexivity).
  destruct (proj2 C3_hash_after_construction_and_seal 100%nat
              Blockchain.create_genesis_block 1 Sample.sealed_genesis) as (_ & Hz & Hh).
  - vm_compute; reflexivity.
  - exact Hrun.
  - split_and!; [exact Hrun | apply (Hz 0%nat); lia | exact Hh].
Defined.

(** C7.  At difficulty 0 the loop condition of [mine_block] is false at the
    first test, whatever the block: no iteration runs, and the block is
    returned with its nonce and its hash as they were. *)
Theorem C7_seal_at_difficulty_zero (fuel : nat) (B : Block.t) :
  Block.mine_block fuel B 0 = Returns B.
Proof. apply BlockFacts.mine_block_difficulty_0. Qed.

(* ===================================================================== *)
(** ** Blockchain: mining and the genesis block *)
(* ===================================================================== *)

Module LedgerFacts.
Import Blockchain Client Spec.

(** What a returning [mine_pending_transactions] did. *)
Lemma mine_pending_transactions_Returns fuel self miner_address now self' :
  mine_pending_transactions fuel self miner_address now = Returns self' →
  ∃ last_block block,
    last (chain self) = Some last_block
    ∧ Block.mine_block fuel
        (Block.__init__ (Block.hash last_block) (pending_transactions self) now 0)
        (difficulty self) = Returns block
    ∧ self' = Build (chain self ++ [block])
                    [Transaction.__init__ None miner_address 1] (difficulty self).
Proof.
  unfold mine_pending_transactions, get_last_block. intros H.
  destruct (last (chain self)) as [last_block|] eqn:Hlast; [|done].
  rewrite bind_Returns in H.
  apply bind_Returns_inv in H as (block & Hmine & H).
  injection H as <-. by exists last_block, block.
Qed.

(** Every call extends the chain at its end, and keeps the difficulty. *)
Lemma do_call_chain fuel self c self' :
  do_call fuel self c = Returns self' →
  ∃ blocks, chain self' = chain self ++ blocks
            ∧ length blocks = (if is_mine c || is_add_block c then 1 else 0)%nat.
Proof.
  destruct c as [tx|b|miner now]; cbn [do_call is_mine is_add_block orb].
  - intros [= <-]. exists []. by rewrite app_nil_r.
  - intros [= <-]. by exists [b].
  - intros H. apply mine_pending_transactions_Returns in H as (l & b & _ & _ & ->).
    by exists [b].
Qed.

Lemma do_calls_chain fuel calls : ∀ self self',
  do_calls fuel self calls = Returns self' →
  ∃ blocks, chain self' = chain self ++ blocks.
Proof.
  induction calls as [|c calls IH]; intros self self'; cbn [do_calls].
  - intros [= <-]. exists []. by rewrite app_nil_r.
  - intros H. apply bind_Returns_inv in H as (self1 & H1 & H).
    apply do_call_chain in H1 as (blocks1 & E1 & _).
    apply IH in H as (blocks2 & E2).
    exists (blocks1 ++ blocks2). by rewrite E2, E1, app_assoc.
Qed.

(** A call other than [add_block] keeps a chain non-empty and linked. *)
Lemma do_call_linked fuel self c self' :
  is_add_block c = false →
  do_call fuel self c = Returns self' →
  linked (chain self) → linked (chain self').
Proof.
  destruct c as [tx|b|miner now]; cbn [do_call is_add_block]; [|done|].
  - by intros _ [= <-].
  - intros _ H Hlinked.
    apply mine_pending_transactions_Returns in H as (l & b & Hlast & Hmine & ->).
    cbn [chain].
    destruct (BlockFacts.mine_block_Returns _ _ _ _ Hmine) as (_ & Hp & _ & _ & _ & Hh).
    apply (ChainFacts.linked_snoc _ l); [done.. | by apply Hh | done].
Qed.

(** The sample ledgers are states a client reaches. *)
Lemma two_blocks_reached :
  do_calls 0 (__init__ 0) [MinePendingTransactions (Some "miner1") 0]
  = Returns Sample.two_blocks.
Proof. vm_compute. reflexivity. Qed.


End LedgerFacts.

Lemma mining_calls_cons (c : Client.call) (calls : list Client.call) :
  Client.mining_calls (c :: calls)
  = ((if Client.is_mine c then 1 else 0) + Client.mining_calls calls)%nat.
Proof. unfold Client.mining_calls. rewrite filter_cons. by destruct c. Qed.

(** Calls other than [add_block] keep the chain linked and add one block
    per mining call. *)
Lemma do_calls_linked fuel calls : ∀ self self',
  Forall (fun c => Client.is_add_block c = false) calls →
  Client.do_calls fuel self calls = Returns self' →
  Spec.linked (Blockchain.chain self) →
  Spec.linked (Blockchain.chain self')
  ∧ length (Blockchain.chain self')
    = (length (Blockchain.chain self) + Client.mining_calls calls)%nat.
Proof.
  induction calls as [|c calls IH]; intros self self' Hcalls; cbn [Client.do_calls].
  - intros [= <-] Hl. split; [done|]. unfold Client.mining_calls. cbn. lia.
  - intros H Hl. apply Forall_cons in Hcalls as [Hc Hcalls].
    apply bind_Returns_inv in H as (self1 & H1 & H).
    pose proof (LedgerFacts.do_call_linked _ _ _ _ Hc H1 Hl) as Hl1.
    apply LedgerFacts.do_call_chain in H1 as (blocks & E & Hlen).
    destruct (IH _ _ Hcalls H Hl1) as [Hl' Hlen'].
    split; [done|]. rewrite Hlen', E, length_app, Hlen, mining_calls_cons, Hc.
    rewrite orb_false_r. lia.
Qed.

(** C4.  From a freshly constructed ledger of any difficulty, after calls
    of [add_transaction] and [mine_pending_transactions] in any order that
    all return, N of them being [mine_pending_transactions], the chain has
    N + 1 blocks and [is_chain_valid] prints nothing and returns [True]. *)
Theorem C4_chain_after_mining (difficulty : Z) (fuel : nat)
    (calls : list Client.call) (self' : Blockchain.t) :
  Forall (fun c => Client.is_add_block c = false) calls →
  Client.do_calls fuel (Blockchain.__init__ difficulty) calls = Returns self' →
  length (Blockchain.chain self') = (Client.mining_calls calls + 1)%nat
  ∧ Blockchain.is_chain_valid self' = Returns ([], true).
Proof.
  intros Hcalls Hrun.
  destruct (do_calls_linked _ _ _ _ Hcalls Hrun) as [Hlinked Hlen].
  { intros i Hi. cbn in Hi. lia. }
  split; [cbn in Hlen; lia|].
  apply ChainFacts.verdict_Valid_iff in Hlinked.
  by rewrite (ChainFacts.is_chain_valid_of_verdict _ _ Hlinked).
Qed.

(** The calls of the demonstration driver at difficulty 1: three blocks, a
    valid chain. *)
Lemma C4_witness :
  Client.do_calls 100 (Blockchain.__init__ 1) Sample.driver_calls = Returns Sample.after_driver
  ∧ length (Blockchain.chain Sample.after_driver) = 3%nat
  ∧ Blockchain.is_chain_valid Sample.after_driver = Returns ([], true).
Proof.
  assert (Client.do_calls 100 (Blockchain.__init__ 1) Sample.driver_calls
          = Returns Sample.after_driver) as Hrun by (vm_compute; reflexivity).
  split; [exact Hrun|].
  apply (C4_chain_after_mining 1 100 Sample.driver_calls).
  - repeat constructor.
  - exact Hrun.
Defined.

(** C5.  When [mine_pending_transactions] returns, the chain is the old
    chain followed by one block; that block has the hash of the last block
    of the old chain as [previous_hash] and the old pending list as
    [transactions] (empty or not); and the pending list is the single
    transaction from [None] to the miner's address with amount 1. *)
Theorem C5_mine_pending_transactions (fuel : nat) (self : Blockchain.t)
    (miner_address : option string) (now : Z) (self' : Blockchain.t) :
  Blockchain.mine_pending_transactions fuel self miner_address now = Returns self' →
  ∃ last_block block,
    last (Blockchain.chain self) = Some last_block
    ∧ Blockchain.chain self' = Blockchain.chain self ++ [block]
    ∧ Block.previous_hash block = Block.hash last_block
    ∧ Block.transactions block = Blockchain.pending_transactions self
    ∧ Blockchain.pending_transactions self'
      = [Transaction.__init__ None miner_address 1].
Proof.
  intros H.
  apply LedgerFacts.mine_pending_transactions_Returns in H as (l & b & Hlast & Hmine & ->).
  destruct (BlockFacts.mine_block_Returns _ _ _ _ Hmine) as (_ & Hp & Ht & _).
  exists l, b. by split_and!.
Qed.

(** The second mining call of the demonstration driver, on a chain of two
    blocks: the new block is linked to the second block, not to the first. *)
Lemma C5_witness :
  last (Blockchain.chain Sample.after_first_mine) = Some Sample.first_mined
  ∧ Blockchain.chain Sample.after_driver
    = Blockchain.chain Sample.after_first_mine ++ [Sample.second_mined]
  ∧ Block.previous_hash Sample.second_mined = Block.hash Sample.first_mined
  ∧ Block.previous_hash Sample.second_mined ≠ Block.hash Blockchain.create_genesis_block
  ∧ Block.transactions Sample.second_mined
    = [Transaction.__init__ None (Some "miner1") 1;
       Transaction.__init__ (Some "C") (Some "D") 10]
  ∧ Blockchain.pending_transactions Sample.after_driver
    = [Transaction.__init__ None (Some "miner2") 1].
Proof.
  destruct (C5_mine_pending_transactions 100
              (Blockchain.add_transaction Sample.after_first_mine
                 (Transaction.__init__ (Some "C") (Some "D") 10))
              (Some "miner2") 1700000060 Sample.after_driver)
    as (l & b & Hlast & Hchain & Hprev & Htxs & Hpending).
  - vm_compute; reflexivity.
  - vm_compute in Hlast. injection Hlast as <-.
    vm_compute in Hchain. injection Hchain as <-.
    split_and!; [reflexivity | reflexivity | exact Hprev | | exact Htxs | exact Hpending].
    vm_compute. intros E. discriminate E.
Defined.

(** C8.  A freshly constructed ledger has a chain of exactly one block,
    the genesis block, whose [previous_hash] is ["0"], whose transaction
    list is empty and whose timestamp and nonce are 0, and an empty pending
    list.  After any calls of [add_transaction], [add_block] and
    [mine_pending_transactions] that return, the first block of the chain
    is still that block. *)
Theorem C8_genesis_block :
  (∀ difficulty,
     Blockchain.chain (Blockchain.__init__ difficulty) = [Blockchain.create_genesis_block]
     ∧ Blockchain.pending_transactions (Blockchain.__init__ difficulty) = [])
  ∧ (Block.previous_hash Blockchain.create_genesis_block = "0"
     ∧ Block.transactions Blockchain.create_genesis_block = []
     ∧ Block.timestamp Blockchain.create_genesis_block = 0
     ∧ Block.nonce Blockchain.create_genesis_block = 0)
  ∧ (∀ difficulty fuel calls self',
       Client.do_calls fuel (Blockchain.__init__ difficulty) calls = Returns self' →
       Blockchain.chain self' !! 0%nat = Some Blockchain.create_genesis_block).
Proof.
  split_and!; try done.
  intros d fuel calls self' H.
  apply LedgerFacts.do_calls_chain in H as (blocks & ->). reflexivity.
Qed.

(** The driver's calls followed by an [add_block] of an unrelated block. *)
Lemma C8_witness :
  Blockchain.chain
    (Blockchain.add_block Sample.after_driver Sample.sealed_genesis) !! 0%nat
  = Some Blockchain.create_genesis_block.
Proof.
  apply (proj2 (proj2 C8_genesis_block) 1 100%nat
           (Sample.driver_calls ++ [Client.AddBlock Sample.sealed_genesis])).
  vm_compute; reflexivity.
Defined.

(* ===================================================================== *)
(** ** Blockchain: what validation reads *)
(* ===================================================================== *)

(** Of the first block, the loop reads the [hash] attribute only. *)
Lemma loop_first_block (g g' : Block.t) (rest : list Block.t) (range : list nat) :
  Block.hash g' = Block.hash g →
  (∀ i, i ∈ range → (1 ≤ i)%nat) →
  Blockchain.is_chain_valid_loop (g' :: rest) range
  = Blockchain.is_chain_valid_loop (g :: rest) range.
Proof.
  intros Hhash. induction range as [|i range IH]; intros Hrange; [done|].
  assert (1 ≤ i)%nat as Hi by (apply Hrange; left).
  destruct i as [|i]; [lia|]. cbn [Blockchain.is_chain_valid_loop].
  replace (S i - 1)%nat with i by lia.
  change (index (g' :: rest) (S i)) with (index rest i).
  change (index (g :: rest) (S i)) with (index rest i).
  destruct (index rest i) as [cur| |]; [|done..]. rewrite !bind_Returns.
  rewrite IH by (intros j Hj; apply Hrange; by right).
  destruct i as [|i].
  - change (index (g' :: rest) 0) with (Returns g').
    change (index (g :: rest) 0) with (Returns g).
    by rewrite !bind_Returns, Hhash.
  - change (index (g' :: rest) (S i)) with (index rest i).
    by change (index (g :: rest) (S i)) with (index rest i).
Qed.

(** C10.  Assigning any values to [previous_hash], [transactions],
    [timestamp] and [nonce] of the first block of any chain, its [hash]
    attribute left as it is, changes neither what [is_chain_valid] prints
    nor what it returns, nor the iteration and test it returns from. *)
Theorem C10_first_block_not_inspected (self : Blockchain.t) (previous_hash : string)
    (transactions : list Transaction.t) (timestamp nonce : Z) :
  Blockchain.is_chain_valid (Tamper.set_genesis self previous_hash transactions timestamp nonce)
  = Blockchain.is_chain_valid self
  ∧ Blockchain.is_chain_valid_verdict
      (Tamper.set_genesis self previous_hash transactions timestamp nonce)
    = Blockchain.is_chain_valid_verdict self.
Proof.
  assert (Blockchain.is_chain_valid_verdict
            (Tamper.set_genesis self previous_hash transactions timestamp nonce)
          = Blockchain.is_chain_valid_verdict self) as H.
  { unfold Blockchain.is_chain_valid_verdict, Blockchain.is_chain_valid_range, Tamper.set_genesis.
    cbn [Blockchain.chain Blockchain.set_chain]. rewrite length_alter.
    destruct (Blockchain.chain self) as [|g rest]; [done|].
    apply loop_first_block; [done|]. intros i Hi. apply elem_of_seq in Hi. lia. }
  split; [|done]. unfold Blockchain.is_chain_valid. by rewrite H.
Qed.

(* ===================================================================== *)
(** ** Blockchain: balances *)
(* ===================================================================== *)

Module BalanceFacts.
Import Blockchain Spec.

Lemma get_balance_step_contribution address balance transaction :
  get_balance_step address balance transaction = balance + contribution address transaction.
Proof. unfold get_balance_step, contribution. repeat case_bool_decide; lia. Qed.

Lemma fold_get_balance_step address transactions : ∀ balance,
  fold_left (get_balance_step address) transactions balance
  = balance + sum_Z (map (contribution address) transactions).
Proof.
  induction transactions as [|tx txs IH]; intros balance; cbn; [lia|].
  rewrite IH, get_balance_step_contribution. unfold sum_Z. lia.
Qed.

Lemma sum_Z_app (l1 l2 : list Z) : sum_Z (l1 ++ l2) = sum_Z l1 + sum_Z l2.
Proof. induction l1 as [|x l1 IH]; cbn; [done|]. unfold sum_Z in *. lia. Qed.

Lemma fold_blocks address blocks : ∀ balance,
  fold_left (fun balance block =>
               fold_left (get_balance_step address) (Block.transactions block) balance)
            blocks balance
  = balance + sum_Z (map (contribution address) (concat (map Block.transactions blocks))).
Proof.
  induction blocks as [|b blocks IH]; intros balance; cbn; [lia|].
  rewrite IH, fold_get_balance_step, map_app, sum_Z_app. lia.
Qed.

Lemma get_balance_sum self address : get_balance self address = balance_sum self address.
Proof. unfold get_balance, balance_sum, all_transactions. by rewrite fold_blocks. Qed.

End BalanceFacts.

(** C6.  For every ledger and every address [a] that is a string,
    [get_balance] returns the sum, over the transactions of the blocks of
    the chain in order, of [+amount] where the receiver is [a] and
    [-amount] where the sender is [a].  A transaction whose sender is its
    receiver leaves the running balance as it was, and the balance of an
    address that occurs in no transaction is 0. *)
Theorem C6_get_balance (self : Blockchain.t) (a : string) :
  Blockchain.get_balance self (Some a) = Spec.balance_sum self (Some a)
  ∧ (∀ balance transaction,
       Transaction.sender transaction = Transaction.receiver transaction →
       Blockchain.get_balance_step (Some a) balance transaction = balance
       ∧ Spec.contribution (Some a) transaction = 0)
  ∧ (Spec.unused self (Some a) → Blockchain.get_balance self (Some a) = 0).
Proof.
  split_and!.
  - apply BalanceFacts.get_balance_sum.
  - intros balance tx Heq.
    assert (Spec.contribution (Some a) tx = 0) as H0.
    { unfold Spec.contribution. rewrite Heq. case_bool_decide; lia. }
    rewrite BalanceFacts.get_balance_step_contribution, H0. split; [lia | done].
  - intros Hunused. rewrite BalanceFacts.get_balance_sum. unfold Spec.balance_sum.
    unfold Spec.unused in Hunused.
    induction (Spec.all_transactions self) as [|tx txs IH]; [done|].
    cbn [map Spec.sum_Z foldr]. fold (Spec.sum_Z (map (Spec.contribution (Some a)) txs)).
    rewrite IH by (intros tx' Htx'; apply Hunused; by right).
    destruct (Hunused tx ltac:(left)) as [Hs Hr].
    unfold Spec.contribution. rewrite !bool_decide_eq_false_2 by done. lia.
Qed.

(** On the ledger the driver leaves: a self-transfer counts for nothing,
    and the address "E" is in no transaction. *)
Lemma C6_witness :
  Blockchain.get_balance_step (Some "A") 7 (Transaction.__init__ (Some "A") (Some "A") 5) = 7
  ∧ Blockchain.get_balance Sample.after_driver (Some "E") = 0.
Proof.
  split.
  - apply (proj1 (proj2 (C6_get_balance Sample.after_driver "A"))). reflexivity.
  - apply (proj2 (proj2 (C6_get_balance Sample.after_driver "E"))).
    intros tx Htx. vm_compute in Htx.
    repeat (apply elem_of_cons in Htx as [->|Htx]; [by split|]).
    by apply elem_of_nil in Htx.
Defined.




(* ===================================================================== *)
(** ** Blockchain: tampering with a block of a valid chain *)
(* ===================================================================== *)

Module TamperFacts.
Import Blockchain Spec.

Lemma is_chain_valid_True_inv (self : t) (output : list string) :
  is_chain_valid self = Returns (output, true) → linked (chain self).
Proof.
  unfold is_chain_valid. intros H. apply bind_Returns_inv in H as (v & Hv & H).
  apply ChainFacts.verdict_Valid_iff. by destruct v.
Qed.

(** The iterations before the one of an altered block pass as before. *)
Lemma passes_before_alter (chain : list Block.t) (f : Block.t → Block.t) (k i : nat) :
  (1 ≤ i < k)%nat → passes chain i → passes (alter f k chain) i.
Proof.
  intros Hi (cur & prev & Hc & Hp & ?). exists cur, prev.
  rewrite !list_lookup_alter_ne by lia. tauto.
Qed.



End TamperFacts.

(** On the two-block ledger, a state reached by one
    [mine_pending_transactions] ([LedgerFacts.two_blocks_reached]), with
    [chain[1].previous_hash = "x"]: [is_chain_valid] returns [False] from
    the first test of iteration 1 and prints the line of the hash test, not
    the line of the linkage test. *)
Lemma C1_counterexample :
  Client.do_calls 0 (Blockchain.__init__ 0) [Client.MinePendingTransactions (Some "miner1") 0]
  = Returns Sample.two_blocks
  ∧ Blockchain.is_chain_valid Sample.two_blocks = Returns ([], true)
  ∧ Blockchain.chain Sample.two_blocks !! 0%nat = Some Blockchain.create_genesis_block
  ∧ "x" ≠ Block.hash Blockchain.create_genesis_block
  ∧ Blockchain.is_chain_valid_verdict (Tamper.set_previous_hash Sample.two_blocks 1 "x")
    = Returns (HashMismatch 1)
  ∧ Blockchain.is_chain_valid (Tamper.set_previous_hash Sample.two_blocks 1 "x")
    = Returns (["Current block hash does not match"], false)
  ∧ Blockchain.is_chain_valid_verdict (Tamper.set_previous_hash Sample.two_blocks 1 "x")
    ≠ Returns (LinkMismatch 1).
Proof.
  split; [exact LedgerFacts.two_blocks_reached|].
  split_and!; try (vm_compute; reflexivity); vm_compute; intros E; discriminate E.
Qed.

(** C1 (amended).  On a chain that [is_chain_valid] accepts, assigning to
    [chain[k].previous_hash], for [k > 0], a value other than
    [chain[k-1].hash] makes [is_chain_valid] return [False] from iteration
    [k].  It returns from the hash test, printing the line of the hash
    test, when the hash computed from the altered block differs from the
    stored one, and from the linkage test only when the two are equal. *)
Theorem C1_broken_link (self : Blockchain.t) (k : nat)
    (current_block previous_block : Block.t) (v : string) :
  Blockchain.is_chain_valid self = Returns ([], true) →
  (0 < k)%nat →
  Blockchain.chain self !! k = Some current_block →
  Blockchain.chain self !! (k - 1)%nat = Some previous_block →
  v ≠ Block.hash previous_block →
  (∃ output, Blockchain.is_chain_valid (Tamper.set_previous_hash self k v)
             = Returns (output, false))
  ∧ (Block.calculate_hash (Block.set_previous_hash current_block v) ≠ Block.hash current_block →
     Blockchain.is_chain_valid_verdict (Tamper.set_previous_hash self k v)
     = Returns (HashMismatch k)
     ∧ Blockchain.is_chain_valid (Tamper.set_previous_hash self k v)
       = Returns (["Current block hash does not match"], false))
  ∧ (Block.calculate_hash (Block.set_previous_hash current_block v) = Block.hash current_block →
     Blockchain.is_chain_valid_verdict (Tamper.set_previous_hash self k v)
     = Returns (LinkMismatch k)
     ∧ Blockchain.is_chain_valid (Tamper.set_previous_hash self k v)
       = Returns (["Previous block hash does not match"], false)).
Proof.
  intros Hvalid Hk Hcur Hprev Hv.
  apply TamperFacts.is_chain_valid_True_inv in Hvalid.
  pose proof (lookup_lt_Some _ _ _ Hcur) as Hlen.
  set (f := fun block => Block.set_previous_hash block v).
  assert (Blockchain.is_chain_valid_verdict (Tamper.set_previous_hash self k v)
          = Blockchain.is_chain_valid_loop (alter f k (Blockchain.chain self))
              (k :: seq (S k) (length (Blockchain.chain self) - 1 - k))) as Hloop.
  { rewrite (ChainFacts.verdict_first_failure _ k); cbn [Tamper.set_previous_hash
      Blockchain.chain Blockchain.set_chain]; rewrite ?length_alter; [done | lia |].
    intros i Hi. apply TamperFacts.passes_before_alter; [done|]. apply Hvalid. lia. }
  assert (alter f k (Blockchain.chain self) !! k = Some (f current_block)) as Hcur'
    by (by rewrite list_lookup_alter_eq, Hcur).
  assert (alter f k (Blockchain.chain self) !! (k - 1)%nat = Some previous_block) as Hprev'
    by (by rewrite list_lookup_alter_ne by lia).
  assert (Block.calculate_hash (f current_block) ≠ Block.hash current_block →
          Blockchain.is_chain_valid_verdict (Tamper.set_previous_hash self k v)
          = Returns (HashMismatch k)) as Hhash.
  { intros Hne. rewrite Hloop.
    apply (ChainFacts.loop_cons_hash _ _ _ _ _ Hcur' Hprev'). by intros E; apply Hne. }
  assert (Block.calculate_hash (f current_block) = Block.hash current_block →
          Blockchain.is_chain_valid_verdict (Tamper.set_previous_hash self k v)
          = Returns (LinkMismatch k)) as Hlink.
  { intros He. rewrite Hloop.
    apply (ChainFacts.loop_cons_link _ _ _ _ _ Hcur' Hprev'); [done|].
    cbn. by intros E; apply Hv. }
  split_and!.
  - destruct (decide (Block.calculate_hash (f current_block) = Block.hash current_block)) as [E|E].
    + eexists. by rewrite (ChainFacts.is_chain_valid_of_verdict _ _ (Hlink E)).
    + eexists. by rewrite (ChainFacts.is_chain_valid_of_verdict _ _ (Hhash E)).
  - intros E. split; [by apply Hhash|].
    by rewrite (ChainFacts.is_chain_valid_of_verdict _ _ (Hhash E)).
  - intros E. split; [by apply Hlink|].
    by rewrite (ChainFacts.is_chain_valid_of_verdict _ _ (Hlink E)).
Qed.

(** The two-block ledger with [chain[1].previous_hash = "x"]. *)
Lemma C1_witness :
  Blockchain.is_chain_valid_verdict (Tamper.set_previous_hash Sample.two_blocks 1 "x")
  = Returns (HashMismatch 1)
  ∧ Blockchain.is_chain_valid (Tamper.set_previous_hash Sample.two_blocks 1 "x")
    = Returns (["Current block hash does not match"], false).
Proof.
  destruct (C1_broken_link Sample.two_blocks 1 Sample.second_block
              Blockchain.create_genesis_block "x") as (_ & Hhash & _).
  - vm_compute; reflexivity.
  - lia.
  - vm_compute; reflexivity.
  - vm_compute; reflexivity.
  - vm_compute. intros E. discriminate E.
  - apply Hhash. vm_compute. intros E. discriminate E.
Defined.

(* ===================================================================== *)
(** ** Serialisation and collisions *)
(* ===================================================================== *)

Module DataFacts.
Import Py PyFacts.








Lemma calculate_hash_data (block1 block2 : Block.t) :
  Block.data block1 = Block.data block2 →
  Block.calculate_hash block1 = Block.calculate_hash block2.
Proof. unfold Block.calculate_hash. by intros ->. Qed.



End DataFacts.




(* ===================================================================== *)
(** ** Further properties of Block *)
(* ===================================================================== *)

Module HashFacts.
Import Scenario.

Lemma hex_digit_is_hex (d : Z) : 0 <= d < 16 → is_hex_char (SHA256.hex_digit d) = true.
Proof.
  intros Hd.
  assert (d = 0 ∨ d = 1 ∨ d = 2 ∨ d = 3 ∨ d = 4 ∨ d = 5 ∨ d = 6 ∨ d = 7 ∨ d = 8
          ∨ d = 9 ∨ d = 10 ∨ d = 11 ∨ d = 12 ∨ d = 13 ∨ d = 14 ∨ d = 15) as Hcases by lia.
  repeat (destruct Hcases as [->|Hcases]; [reflexivity|]). by subst.
Qed.

Lemma to_hex_all_hex (n : nat) : ∀ x acc,
  all_chars is_hex_char acc = true → all_chars is_hex_char (SHA256.to_hex n x acc) = true.
Proof.
  induction n as [|n IH]; intros x acc Hacc; [done|].
  cbn [SHA256.to_hex]. apply IH. cbn [all_chars].
  rewrite hex_digit_is_hex, Hacc; [done|]. apply Z.mod_pos_bound. lia.
Qed.

Lemma calculate_hash_length (block : Block.t) :
  String.length (Block.calculate_hash block) = 64%nat.
Proof. apply SHA256Facts.hexdigest_length. Qed.

Lemma take_str_length (n : nat) (s : string) :
  String.length (Py.take_str n s) = (n `min` String.length s)%nat.
Proof.
  revert s. induction n as [|n IH]; intros [|c s]; cbn; try done. by rewrite IH.
Qed.

Lemma repeat_str_length (n : nat) (c : ascii) :
  String.length (Py.repeat_str n (String c EmptyString)) = n.
Proof.
  induction n as [|n IH]; [done|].
  cbn [Py.repeat_str]. rewrite PyFacts.app_str_length, IH. reflexivity.
Qed.

(** On a 64-character hash, the loop condition of [mine_block] is true for
    a difficulty above 64 or between -64 and 0, and false for a difficulty
    of -64 or less. *)
Lemma slice_ne_target (h : string) (d : Z) :
  String.length h = 64%nat → 64 < d ∨ -64 < d < 0 →
  Py.slice_to h d ≠ Py.mul_str "0" d.
Proof.
  intros Hlen Hd E. apply (f_equal String.length) in E.
  unfold Py.slice_to, Py.mul_str in E.
  rewrite repeat_str_length in E.
  destruct (d <? 0) eqn:Hneg; rewrite take_str_length, Hlen in E; lia.
Qed.

Lemma slice_eq_target (h : string) (d : Z) :
  String.length h = 64%nat → d <= -64 → Py.slice_to h d = Py.mul_str "0" d.
Proof.
  intros Hlen Hd. unfold Py.slice_to, Py.mul_str.
  destruct (d <? 0) eqn:Hneg; [|lia].
  replace (String.length h - Z.to_nat (- d))%nat with 0%nat by lia.
  by replace (Z.to_nat d) with 0%nat by lia.
Qed.

Lemma mine_block_diverges (fuel : nat) : ∀ (b : Block.t) (d : Z),
  String.length (Block.hash b) = 64%nat → 64 < d ∨ -64 < d < 0 →
  Block.mine_block fuel b d = OutOfFuel.
Proof.
  induction fuel as [|fuel IH]; intros b d Hlen Hd; rewrite BlockFacts.mine_block_unfold;
    rewrite bool_decide_eq_true_2 by (by apply slice_ne_target); [done|].
  cbv zeta. apply IH; [|done]. apply calculate_hash_length.
Qed.

(** The nonces [mine_block] passes over do not meet the target. *)
Lemma mine_block_least (fuel : nat) : ∀ (b b' : Block.t) (d : Z),
  Block.hash b = Block.calculate_hash b →
  Block.mine_block fuel b d = Returns b' →
  Block.nonce b' - Block.nonce b <= Z.of_nat fuel
  ∧ ∀ n, Block.nonce b <= n < Block.nonce b' →
         Py.slice_to (Block.calculate_hash (Block.set_nonce b n)) d ≠ Py.mul_str "0" d.
Proof.
  induction fuel as [|fuel IH]; intros b b' d Hinv; rewrite BlockFacts.mine_block_unfold;
    case_bool_decide as Hcond; try done.
  - intros [= <-]. split; [lia|]. intros n Hn. lia.
  - cbv zeta. intros Hrun.
    apply IH in Hrun as [Hfuel Hleast]; [|done].
    cbn [Block.nonce Block.set_hash Block.set_nonce] in Hfuel, Hleast.
    split; [lia|]. intros n Hn.
    destruct (decide (n = Block.nonce b)) as [->|Hne].
    + replace (Block.set_nonce b (Block.nonce b)) with b by (by destruct b).
      by rewrite <- Hinv.
    + specialize (Hleast n ltac:(lia)). exact Hleast.
  - intros [= <-]. split; [lia|]. intros n Hn. lia.
Qed.

End HashFacts.

(** X1.  The hash [calculate_hash] returns is 64 characters long, each of
    them one of [0123456789abcdef]; so is the hash of a block just
    constructed. *)
Theorem X1_hash_format (block : Block.t) :
  String.length (Block.calculate_hash block) = 64%nat
  ∧ Scenario.all_chars Scenario.is_hex_char (Block.calculate_hash block) = true.
Proof.
  split; [apply HashFacts.calculate_hash_length|].
  unfold Block.calculate_hash, Py.sha256_hex, SHA256.hexdigest.
  by apply HashFacts.to_hex_all_hex.
Qed.

(** X2.  When [mine_block] returns on a block that carries its computed
    hash, it has assigned [nonce] and [hash] only, the nonce has not
    decreased, and no nonce from the initial one up to the returned one
    (excluded) gives a hash that meets the target: the returned nonce is
    the least one that does. *)
Theorem X2_mine_block_least_nonce (fuel : nat) (B B' : Block.t) (difficulty : Z) :
  Block.hash B = Block.calculate_hash B →
  Block.mine_block fuel B difficulty = Returns B' →
  Block.previous_hash B' = Block.previous_hash B
  ∧ Block.transactions B' = Block.transactions B
  ∧ Block.timestamp B' = Block.timestamp B
  ∧ Block.nonce B <= Block.nonce B'
  ∧ Py.slice_to (Block.calculate_hash (Block.set_nonce B (Block.nonce B'))) difficulty
    = Py.mul_str "0" difficulty
  ∧ ∀ n, Block.nonce B <= n < Block.nonce B' →
         Py.slice_to (Block.calculate_hash (Block.set_nonce B n)) difficulty
         ≠ Py.mul_str "0" difficulty.
Proof.
  intros Hinv Hrun.
  destruct (BlockFacts.mine_block_Returns _ _ _ _ Hrun) as (Hz & Hp & Ht & Hts & Hn & Hh).
  destruct (HashFacts.mine_block_least _ _ _ _ Hinv Hrun) as [_ Hleast].
  split_and!; try done.
  rewrite <- Hz, (Hh Hinv). f_equal. apply DataFacts.calculate_hash_data.
  unfold Block.data. cbn [Block.previous_hash Block.transactions Block.timestamp
    Block.nonce Block.set_nonce]. by rewrite Hp, Ht, Hts.
Qed.

(** The genesis block at difficulty 1: the nonces 0 to 10 fail, 11 is
    returned. *)
Lemma X2_witness :
  Block.nonce Sample.sealed_genesis = 11
  ∧ ∀ n, 0 <= n < 11 →
         Py.slice_to (Block.calculate_hash (Block.set_nonce Blockchain.create_genesis_block n)) 1
         ≠ Py.mul_str "0" 1.
Proof.
  split; [reflexivity|].
  apply (X2_mine_block_least_nonce 100 Blockchain.create_genesis_block
           Sample.sealed_genesis 1).
  - vm_compute; reflexivity.
  - vm_compute; reflexivity.
Defined.

(** X3.  On a block whose stored hash has the 64 characters of a hash,
    [mine_block] never returns a block when the difficulty is above 64 or
    strictly between -64 and 0: the slice of the hash and the target differ
    in length at every iteration, so the loop is never left.  At a
    difficulty of -64 or less that fits the index type both are empty, and
    it returns at once, the block unchanged. *)
Theorem X3_mine_block_difficulty_range (fuel : nat) (B : Block.t) (difficulty : Z) :
  String.length (Block.hash B) = 64%nat →
  (64 < difficulty ∨ -64 < difficulty < 0 →
   ∀ B', Block.mine_block fuel B difficulty ≠ Returns B')
  ∧ (Domain.index_ok difficulty = true → difficulty <= -64 →
     Block.mine_block fuel B difficulty = Returns B).
Proof.
  intros Hlen. split.
  - intros Hd B'. by rewrite HashFacts.mine_block_diverges.
  - intros _ Hd. rewrite BlockFacts.mine_block_unfold.
    rewrite bool_decide_eq_false_2; [done|].
    intros Hne. apply Hne. by apply HashFacts.slice_eq_target.
Qed.

(** The genesis block at the difficulties 65, -1 and -64. *)
Lemma X3_witness :
  Block.mine_block 1000 Blockchain.create_genesis_block 65 ≠ Returns Sample.sealed_genesis
  ∧ Block.mine_block 1000 Blockchain.create_genesis_block (-1) ≠ Returns Sample.sealed_genesis
  ∧ Block.mine_block 0 Blockchain.create_genesis_block (-64)
    = Returns Blockchain.create_genesis_block.
Proof.
  split_and!.
  - apply (proj1 (X3_mine_block_difficulty_range 1000 Blockchain.create_genesis_block 65
                    ltac:(vm_compute; reflexivity))). lia.
  - apply (proj1 (X3_mine_block_difficulty_range 1000 Blockchain.create_genesis_block (-1)
                    ltac:(vm_compute; reflexivity))). lia.
  - apply (proj2 (X3_mine_block_difficulty_range 0 Blockchain.create_genesis_block (-64)
                    ltac:(vm_compute; reflexivity))); [vm_compute; reflexivity | lia].
Defined.

(* ===================================================================== *)
(** ** The string that is hashed *)
(* ===================================================================== *)

Module DigitFacts.
Import Py PyFacts.







End DigitFacts.



(** X5.  Assigning another value to [previous_hash] alone, to [timestamp]
    alone or to [nonce] alone changes the string [calculate_hash] hashes,
    so that such a change keeps the hash only on a SHA-256 collision. *)
Theorem X5_one_field_changes_data (block : Block.t) :
  (∀ v, v ≠ Block.previous_hash block →
        Block.data (Block.set_previous_hash block v) ≠ Block.data block)
  ∧ (∀ t, t ≠ Block.timestamp block →
          Block.data (Block.set_timestamp block t) ≠ Block.data block)
  ∧ (∀ n, n ≠ Block.nonce block →
          Block.data (Block.set_nonce block n) ≠ Block.data block).
Proof.
  unfold Block.data.
  cbn [Block.previous_hash Block.transactions Block.timestamp Block.nonce
       Block.set_previous_hash Block.set_timestamp Block.set_nonce].
  split_and!.
  - intros v Hv E. apply Hv. by apply PyFacts.app_str_inv_tail in E.
  - intros t Ht E. apply Ht.
    apply PyFacts.app_str_inv_head, PyFacts.app_str_inv_tail in E.
    by apply PyFacts.str_int_inj.
  - intros n Hn E. apply Hn.
    do 2 apply PyFacts.app_str_inv_head in E. apply PyFacts.app_str_inv_tail in E.
    by apply PyFacts.str_int_inj.
Qed.

(** The genesis block with another previous hash, timestamp or nonce. *)
Lemma X5_witness :
  Block.data (Block.set_previous_hash Blockchain.create_genesis_block "1")
  ≠ Block.data Blockchain.create_genesis_block
  ∧ Block.data (Block.set_timestamp Blockchain.create_genesis_block 1)
    ≠ Block.data Blockchain.create_genesis_block
  ∧ Block.data (Block.set_nonce Blockchain.create_genesis_block 1)
    ≠ Block.data Blockchain.create_genesis_block.
Proof.
  destruct (X5_one_field_changes_data Blockchain.create_genesis_block) as (Hp & Ht & Hn).
  split_and!.
  - apply Hp. vm_compute. intros E. discriminate E.
  - apply Ht. vm_compute. intros E. discriminate E.
  - apply Hn. vm_compute. intros E. discriminate E.
Defined.

(* ===================================================================== *)
(** ** Further properties of validation *)
(* ===================================================================== *)

Module VerdictFacts.
Import Blockchain Spec Scenario.

(** A run of the loop over consecutive indices that returns [False] does
    so from the first iteration that does not pass. *)
Lemma loop_seq_inv (chain : list Block.t) (v : verdict) (n : nat) : ∀ a,
  is_chain_valid_loop chain (seq a n) = Returns v → v ≠ Valid →
  ∃ k, (a ≤ k < a + n)%nat ∧ (∀ j, (a ≤ j < k)%nat → passes chain j) ∧ fails_with chain k v.
Proof.
  induction n as [|n IH]; intros a Hrun Hv; [by injection Hrun as <-|].
  cbn [seq is_chain_valid_loop] in Hrun.
  apply bind_Returns_inv in Hrun as (cur & Hc & Hrun).
  apply bind_Returns_inv in Hrun as (prev & Hp & Hrun).
  unfold index in Hc, Hp.
  destruct (chain !! a) as [cur'|] eqn:Ec; [|done]. injection Hc as ->.
  destruct (chain !! (a - 1)%nat) as [prev'|] eqn:Ep; [|done]. injection Hp as ->.
  case_bool_decide as Hh.
  { injection Hrun as <-. exists a. split_and!; [lia.. | lia |]. cbn. eauto. }
  case_bool_decide as Hl.
  { injection Hrun as <-. exists a. split_and!; [lia.. | lia |].
    cbn. split; [done|]. by exists cur, prev. }
  destruct (IH _ Hrun Hv) as (k & Hk & Hbefore & Hfail).
  exists k. split_and!; [lia.. | | done].
  intros j Hj. destruct (decide (j = a)) as [->|]; [by exists cur, prev|].
  apply Hbefore. lia.
Qed.

Lemma verdict_of_first_failure (self : t) (k : nat) (v : verdict) :
  (1 ≤ k < length (chain self))%nat →
  (∀ j, (1 ≤ j < k)%nat → passes (chain self) j) →
  fails_with (chain self) k v →
  is_chain_valid_verdict self = Returns v.
Proof.
  intros Hk Hbefore Hfail. rewrite (ChainFacts.verdict_first_failure _ k Hk Hbefore).
  destruct (lookup_lt_is_Some_2 (chain self) (k - 1)) as [prev Hprev]; [lia|].
  destruct v as [|i|i]; [done| |].
  - destruct Hfail as (-> & cur & Hcur & Hh).
    by apply (ChainFacts.loop_cons_hash _ _ _ cur prev).
  - destruct Hfail as (-> & cur & prev' & Hcur & Hprev' & Hh & Hl).
    by apply (ChainFacts.loop_cons_link _ _ _ cur prev').
Qed.

Lemma verdict_failure_inv (self : t) (v : verdict) :
  is_chain_valid_verdict self = Returns v → v ≠ Valid →
  ∃ k, (1 ≤ k < length (chain self))%nat
       ∧ (∀ j, (1 ≤ j < k)%nat → passes (chain self) j)
       ∧ fails_with (chain self) k v.
Proof.
  intros Hrun Hv. destruct (loop_seq_inv _ _ _ _ Hrun Hv) as (k & Hk & Hbefore & Hfail).
  exists k. split_and!; [lia.. | done | done].
Qed.

Lemma passes_app (chain extra : list Block.t) (j : nat) :
  passes chain j → passes (chain ++ extra) j.
Proof.
  intros (cur & prev & Hc & Hp & ?). exists cur, prev.
  split_and!; try tauto; by apply lookup_app_l_Some.
Qed.

Lemma fails_with_app (chain extra : list Block.t) (k : nat) (v : verdict) :
  fails_with chain k v → fails_with (chain ++ extra) k v.
Proof.
  destruct v as [|i|i]; [done| |].
  - intros (-> & cur & Hc & ?). split; [done|]. exists cur.
    split; [by apply lookup_app_l_Some | done].
  - intros (-> & cur & prev & Hc & Hp & ?). split; [done|]. exists cur, prev.
    split_and!; try tauto; by apply lookup_app_l_Some.
Qed.

(** A verdict [False] is kept when blocks are appended. *)
Lemma verdict_failure_app (self : t) (extra : list Block.t) (v : verdict) :
  is_chain_valid_verdict self = Returns v → v ≠ Valid →
  is_chain_valid_verdict (set_chain self (chain self ++ extra)) = Returns v.
Proof.
  intros Hrun Hv. destruct (verdict_failure_inv _ _ Hrun Hv) as (k & Hk & Hbefore & Hfail).
  apply (verdict_of_first_failure _ k); cbn [chain set_chain].
  - rewrite length_app. lia.
  - intros j Hj. by apply passes_app, Hbefore.
  - by apply fails_with_app.
Qed.


End VerdictFacts.

(** X6.  [is_chain_valid] returns [False] exactly when some block after
    the first fails a test, and it then returns from the first such index
    [k]: every index before [k] passes both tests, and the verdict is the
    hash test of [k] if the stored hash differs from the computed one, the
    linkage test of [k] otherwise. *)
Theorem X6_first_failure (self : Blockchain.t) (v : verdict) :
  Blockchain.is_chain_valid_verdict self = Returns v ∧ v ≠ Valid
  ↔ ∃ k, (1 ≤ k < length (Blockchain.chain self))%nat
         ∧ (∀ j, (1 ≤ j < k)%nat → Spec.passes (Blockchain.chain self) j)
         ∧ Scenario.fails_with (Blockchain.chain self) k v.
Proof.
  split.
  - intros [Hrun Hv]. by apply VerdictFacts.verdict_failure_inv.
  - intros (k & Hk & Hbefore & Hfail). split.
    + by apply (VerdictFacts.verdict_of_first_failure _ k).
    + intros ->. exact Hfail.
Qed.

(** X7.  Once [is_chain_valid] returns [False] on a ledger, it returns
    [False] from the same index and the same test, printing the same line,
    after any further calls of [add_block] and [mine_pending_transactions]
    that return: these calls append to the chain and assign to no block
    already in it, so appending never repairs a chain. *)
Theorem X7_failure_is_kept (fuel : nat) (self self' : Blockchain.t) (v : verdict)
    (calls : list Client.call) :
  Blockchain.is_chain_valid_verdict self = Returns v →
  v ≠ Valid →
  Forall (fun c => (Client.is_mine c || Client.is_add_block c) = true) calls →
  Client.do_calls fuel self calls = Returns self' →
  Blockchain.is_chain_valid_verdict self' = Returns v
  ∧ Blockchain.is_chain_valid self' = Returns (verdict_output v, false).
Proof.
  intros Hrun Hv _ Hcalls.
  apply LedgerFacts.do_calls_chain in Hcalls as (blocks & Hchain).
  pose proof (VerdictFacts.verdict_failure_app _ blocks _ Hrun Hv) as Hkept.
  assert (Blockchain.is_chain_valid_verdict self' = Returns v) as Hverdict.
  { unfold Blockchain.is_chain_valid_verdict, Blockchain.is_chain_valid_range in *.
    cbn [Blockchain.chain Blockchain.set_chain] in Hkept. by rewrite Hchain. }
  split; [done|]. rewrite (ChainFacts.is_chain_valid_of_verdict _ _ Hverdict).
  by destruct v.
Qed.

(** The two-block ledger with a wrong previous hash, then a mining call,
    [add_block] of the sealed genesis block and another mining call. *)
Lemma X7_witness :
  ∃ self',
    Client.do_calls 100 (Tamper.set_previous_hash Sample.two_blocks 1 "x")
      [Client.MinePendingTransactions (Some "miner1") 1700000000;
       Client.AddBlock Sample.sealed_genesis;
       Client.MinePendingTransactions (Some "miner2") 1700000060]
    = Returns self'
    ∧ Blockchain.is_chain_valid self'
      = Returns (["Current block hash does not match"], false).
Proof.
  eexists. split; [vm_compute; reflexivity|].
  eapply (X7_failure_is_kept 100 (Tamper.set_previous_hash Sample.two_blocks 1 "x") _
            (HashMismatch 1)
            [Client.MinePendingTransactions (Some "miner1") 1700000000;
             Client.AddBlock Sample.sealed_genesis;
             Client.MinePendingTransactions (Some "miner2") 1700000060]).
  - vm_compute; reflexivity.
  - intros E. discriminate E.
  - repeat constructor.
  - vm_compute; reflexivity.
Defined.



(** The two-block ledger with a wrong previous hash: index 1 fails the
    hash test. *)
Lemma X6_witness :
  Blockchain.is_chain_valid_verdict (Tamper.set_previous_hash Sample.two_blocks 1 "x")
  = Returns (HashMismatch 1).
Proof.
  apply (proj2 (X6_first_failure (Tamper.set_previous_hash Sample.two_blocks 1 "x")
                  (HashMismatch 1))).
  exists 1%nat. split_and!.
  - lia.
  - vm_compute; lia.
  - intros j Hj. lia.
  - split; [reflexivity|].
    exists (Block.set_previous_hash Sample.second_block "x").
    split; [vm_compute; reflexivity|]. vm_compute. intros E. discriminate E.
Defined.

Module ResealFacts.
Import Blockchain Spec Scenario.

(** The blocks of a resealed chain, read by index. *)
Lemma reseal_lookup_eq (self : t) (i : nat) (block : Block.t) txs ts n :
  chain self !! i = Some block →
  chain (reseal self i txs ts n) !! i
  = Some (Block.__init__ (Block.previous_hash block) txs ts n).
Proof. intros H. unfold reseal. cbn [chain set_chain]. by rewrite list_lookup_alter_eq, H. Qed.

Lemma reseal_lookup_ne (self : t) (i j : nat) txs ts n :
  i ≠ j → chain (reseal self i txs ts n) !! j = chain self !! j.
Proof. intros H. unfold reseal. cbn [chain set_chain]. by rewrite list_lookup_alter_ne. Qed.

Lemma reseal_length (self : t) (i : nat) txs ts n :
  length (chain (reseal self i txs ts n)) = length (chain self).
Proof. unfold reseal. cbn [chain set_chain]. apply length_alter. Qed.

(** Every iteration but the one after the resealed block passes. *)
Lemma reseal_passes (self : t) (i j : nat) (block : Block.t) txs ts n :
  linked (chain self) → (1 ≤ i)%nat → chain self !! i = Some block →
  (1 ≤ j < length (chain self))%nat → j ≠ S i →
  passes (chain (reseal self i txs ts n)) j.
Proof.
  intros Hlinked Hi Hblock Hj Hne.
  destruct (Hlinked j Hj) as (cur & prev & Hc & Hp & Hh & Hl).
  destruct (decide (j = i)) as [->|Hji].
  - assert (cur = block) as -> by congruence.
    exists (Block.__init__ (Block.previous_hash block) txs ts n), prev.
    rewrite (reseal_lookup_eq _ _ block), reseal_lookup_ne by (done || lia).
    split_and!; [done | done | apply BlockFacts.hash_init |].
    by rewrite BlockFacts.previous_hash_init.
  - exists cur, prev. rewrite !reseal_lookup_ne by lia. by split_and!.
Qed.

End ResealFacts.

(** X9.  Resealing: on a chain that [is_chain_valid] accepts, giving the
    block at an index [i >= 1] other transactions, timestamp and nonce and
    storing its recomputed hash is accepted when the block is the last one
    or when its hash has not changed; when a block follows and the hash has
    changed, [is_chain_valid] returns [False] from the linkage test of
    index [i + 1]. *)
Theorem X9_reseal (self : Blockchain.t) (i : nat) (block : Block.t)
    (transactions : list Transaction.t) (timestamp nonce : Z) :
  Blockchain.is_chain_valid self = Returns ([], true) →
  (1 ≤ i)%nat →
  Blockchain.chain self !! i = Some block →
  (Blockchain.chain self !! S i = None
   ∨ Block.hash (Block.__init__ (Block.previous_hash block) transactions timestamp nonce)
     = Block.hash block →
   Blockchain.is_chain_valid (Scenario.reseal self i transactions timestamp nonce)
   = Returns ([], true))
  ∧ (is_Some (Blockchain.chain self !! S i) →
     Block.hash (Block.__init__ (Block.previous_hash block) transactions timestamp nonce)
     ≠ Block.hash block →
     Blockchain.is_chain_valid_verdict (Scenario.reseal self i transactions timestamp nonce)
     = Returns (LinkMismatch (S i))
     ∧ Blockchain.is_chain_valid (Scenario.reseal self i transactions timestamp nonce)
       = Returns (["Previous block hash does not match"], false)).
Proof.
  intros Hvalid Hi Hblock.
  apply TamperFacts.is_chain_valid_True_inv in Hvalid.
  pose proof (lookup_lt_Some _ _ _ Hblock) as Hlen.
  split.
  - intros Hcase.
    apply (ChainFacts.is_chain_valid_of_verdict _ Valid), ChainFacts.verdict_Valid_iff.
    intros j Hj. rewrite ResealFacts.reseal_length in Hj.
    destruct (decide (j = S i)) as [->|Hne];
      [|by apply (ResealFacts.reseal_passes _ _ _ block)].
    destruct Hcase as [Hnone|Hsame].
    { apply lookup_ge_None in Hnone. lia. }
    destruct (Hvalid (S i) Hj) as (cur & prev & Hc & Hp & Hh & Hl).
    replace (S i - 1)%nat with i in * by lia.
    assert (prev = block) as -> by congruence.
    exists cur, (Block.__init__ (Block.previous_hash block) transactions timestamp nonce).
    replace (S i - 1)%nat with i by lia.
    rewrite (ResealFacts.reseal_lookup_eq _ _ block), ResealFacts.reseal_lookup_ne by (done || lia).
    split_and!; [done | done | done |]. by rewrite Hsame.
  - intros [next Hnext] Hchanged.
    pose proof (lookup_lt_Some _ _ _ Hnext) as Hlen'.
    destruct (Hvalid (S i) ltac:(lia)) as (cur & prev & Hc & Hp & Hh & Hl).
    replace (S i - 1)%nat with i in * by lia.
    assert (prev = block) as -> by congruence.
    assert (cur = next) as -> by congruence.
    assert (Blockchain.is_chain_valid_verdict
              (Scenario.reseal self i transactions timestamp nonce)
            = Returns (LinkMismatch (S i))) as Hverdict.
    { apply (VerdictFacts.verdict_of_first_failure _ (S i)).
      - rewrite ResealFacts.reseal_length. lia.
      - intros j Hj. apply (ResealFacts.reseal_passes _ _ _ block); [done.. | lia | lia].
      - cbn [Scenario.fails_with]. split; [done|].
        exists next, (Block.__init__ (Block.previous_hash block) transactions timestamp nonce).
        replace (S i - 1)%nat with i by lia.
        rewrite ResealFacts.reseal_lookup_ne by lia.
        rewrite (ResealFacts.reseal_lookup_eq _ _ block) by done.
        split_and!; [done | done | done |]. by rewrite <- Hl. }
    split; [done|]. by rewrite (ChainFacts.is_chain_valid_of_verdict _ _ Hverdict).
Qed.

(** After the driver's calls: the transfer of the second block set to 1000
    and the block resealed breaks the link of the third block; resealing
    the third block, the last one, is accepted. *)
Lemma X9_witness :
  Blockchain.is_chain_valid
    (Scenario.reseal Sample.after_driver 1
       [Transaction.__init__ (Some "A") (Some "B") 1000] 1700000000 11)
  = Returns (["Previous block hash does not match"], false)
  ∧ Blockchain.is_chain_valid
      (Scenario.reseal Sample.after_driver 2
         [Transaction.__init__ None (Some "miner1") 1000] 1700000060 0)
    = Returns ([], true).
Proof.
  split.
  - apply (X9_reseal Sample.after_driver 1 Sample.first_mined
             [Transaction.__init__ (Some "A") (Some "B") 1000] 1700000000 11).
    + vm_compute; reflexivity.
    + lia.
    + vm_compute; reflexivity.
    + vm_compute. eauto.
    + vm_compute. intros E. discriminate E.
  - apply (X9_reseal Sample.after_driver 2 Sample.second_mined
             [Transaction.__init__ None (Some "miner1") 1000] 1700000060 0).
    + vm_compute; reflexivity.
    + lia.
    + vm_compute; reflexivity.
    + left. vm_compute; reflexivity.
Defined.

(** X10.  On a ledger whose blocks hold integers that [str] converts,
    [is_chain_valid] returns a value and prints at most one line: every
    index it reads is within the chain, so no [IndexError] arises.  On an
    empty chain or a chain of one block it runs no iteration, calls no
    [calculate_hash] and returns [True], whatever the block holds. *)
Theorem X10_is_chain_valid_returns (self : Blockchain.t) :
  (Domain.ledger_ok self = true →
   ∃ output value, Blockchain.is_chain_valid self = Returns (output, value)
                   ∧ (length output ≤ 1)%nat)
  ∧ ((length (Blockchain.chain self) ≤ 1)%nat →
     Blockchain.is_chain_valid self = Returns ([], true)).
Proof.
  split.
  - intros _. destruct (ChainFacts.verdict_total self) as [v Hv].
    exists (verdict_output v), (verdict_value v).
    split; [by apply ChainFacts.is_chain_valid_of_verdict|].
    destruct v; cbn; lia.
  - intros Hlen.
    apply (ChainFacts.is_chain_valid_of_verdict _ Valid), ChainFacts.verdict_Valid_iff.
    intros i Hi. lia.
Qed.

(** The ledger the driver leaves, and a ledger whose only block has a
    stored hash that is not its computed hash. *)
Lemma X10_witness :
  (∃ output value, Blockchain.is_chain_valid Sample.after_driver = Returns (output, value)
                   ∧ (length output ≤ 1)%nat)
  ∧ Blockchain.is_chain_valid
      (Blockchain.Build [Block.set_hash Blockchain.create_genesis_block "none"] [] 2)
    = Returns ([], true).
Proof.
  split.
  - apply (proj1 (X10_is_chain_valid_returns Sample.after_driver)).
    vm_compute; reflexivity.
  - apply (proj2 (X10_is_chain_valid_returns
                    (Blockchain.Build [Block.set_hash Blockchain.create_genesis_block "none"]
                       [] 2))).
    cbn. lia.
Defined.

(* ===================================================================== *)
(** ** Further properties of the ledger *)
(* ===================================================================== *)

Module CallFacts.
Import Blockchain Client Spec.

Lemma mine_block_never_raises (fuel : nat) : ∀ (b : Block.t) (d : Z) (e : exn),
  Block.mine_block fuel b d ≠ Raises e.
Proof.
  induction fuel as [|fuel IH]; intros b d e; rewrite BlockFacts.mine_block_unfold;
    case_bool_decide; done.
Qed.

Lemma get_last_block_Raises (self : t) :
  get_last_block self = Raises IndexError ↔ chain self = [].
Proof.
  unfold get_last_block. rewrite <- last_None.
  by destruct (last (chain self)).
Qed.

(** A call on a ledger with a non-empty chain returns a ledger with a
    non-empty chain, or its mining loop runs out of fuel. *)
Lemma do_call_nonempty (fuel : nat) (self : t) (c : call) :
  chain self ≠ [] →
  (∃ self', do_call fuel self c = Returns self' ∧ chain self' ≠ [])
  ∨ do_call fuel self c = OutOfFuel.
Proof.
  intros Hne. destruct c as [tx|b|miner now]; cbn [do_call].
  - left. eexists. split; [reflexivity|]. done.
  - left. eexists. split; [reflexivity|]. cbn. by destruct (chain self).
  - unfold mine_pending_transactions, get_last_block.
    destruct (last (chain self)) as [l|] eqn:El; [|by apply last_None in El].
    rewrite bind_Returns.
    destruct (Block.mine_block fuel
                (Block.__init__ (Block.hash l) (pending_transactions self) now 0)
                (difficulty self)) as [b|e|] eqn:Em.
    + left. rewrite bind_Returns. eexists. split; [reflexivity|].
      cbn. by destruct (chain self).
    + by apply mine_block_never_raises in Em.
    + by right.
Qed.

Lemma do_calls_nonempty (fuel : nat) (calls : list call) : ∀ self,
  chain self ≠ [] →
  (∃ self', do_calls fuel self calls = Returns self' ∧ chain self' ≠ [])
  ∨ do_calls fuel self calls = OutOfFuel.
Proof.
  induction calls as [|c calls IH]; intros self Hne; cbn [do_calls].
  - left. by exists self.
  - destruct (do_call_nonempty fuel self c Hne) as [(self1 & -> & Hne1)| ->]; [|by right].
    rewrite bind_Returns. by apply IH.
Qed.

Lemma do_calls_app (fuel : nat) (calls1 calls2 : list call) : ∀ self,
  do_calls fuel self (calls1 ++ calls2)
  = (do_calls fuel self calls1 ≫= fun self1 => do_calls fuel self1 calls2).
Proof.
  induction calls1 as [|c calls1 IH]; intros self; [done|].
  cbn [app do_calls]. destruct (do_call fuel self c) as [self1| |]; [|done..].
  rewrite !bind_Returns. apply IH.
Qed.

(** [add_transaction] calls extend the pending list, in order. *)
Lemma do_calls_add_transactions (fuel : nat) (transactions : list Transaction.t) : ∀ self,
  do_calls fuel self (map AddTransaction transactions)
  = Returns (set_pending_transactions self (pending_transactions self ++ transactions)).
Proof.
  induction transactions as [|tx txs IH]; intros self; cbn [map do_calls do_call].
  - rewrite app_nil_r. by destruct self.
  - rewrite bind_Returns, IH. unfold add_transaction.
    cbn [set_pending_transactions chain pending_transactions difficulty].
    by rewrite <- app_assoc.
Qed.

End CallFacts.

(** X11.  [get_last_block] raises [IndexError] exactly on an empty chain,
    and on an empty chain [mine_pending_transactions] raises it before it
    constructs a block.  No ledger that calls of [add_transaction],
    [add_block] and [mine_pending_transactions] return from a freshly
    constructed one has an empty chain: on it [get_last_block] returns the
    last block of the chain. *)
Theorem X11_last_block_exists :
  (∀ self, Blockchain.get_last_block self = Raises IndexError ↔ Blockchain.chain self = [])
  ∧ (∀ fuel self miner_address now,
       Blockchain.chain self = [] →
       Blockchain.mine_pending_transactions fuel self miner_address now = Raises IndexError)
  ∧ (∀ difficulty fuel calls self',
       Client.do_calls fuel (Blockchain.__init__ difficulty) calls = Returns self' →
       ∃ last_block,
         last (Blockchain.chain self') = Some last_block
         ∧ Blockchain.get_last_block self' = Returns last_block).
Proof.
  split_and!.
  - apply CallFacts.get_last_block_Raises.
  - intros fuel self miner now Hempty.
    unfold Blockchain.mine_pending_transactions.
    by rewrite (proj2 (CallFacts.get_last_block_Raises self) Hempty).
  - intros difficulty fuel calls self' Hrun.
    apply LedgerFacts.do_calls_chain in Hrun as (blocks & Hchain).
    destruct (last (Blockchain.chain self')) as [l|] eqn:El.
    + exists l. split; [done|]. unfold Blockchain.get_last_block. by rewrite El.
    + apply last_None in El. by rewrite El in Hchain.
Qed.

(** A ledger whose chain was emptied, and the ledger the driver leaves. *)
Lemma X11_witness :
  Blockchain.mine_pending_transactions 100 (Blockchain.Build [] [] 2) (Some "miner1") 0
  = Raises IndexError
  ∧ ∃ last_block,
      last (Blockchain.chain Sample.after_driver) = Some last_block
      ∧ Blockchain.get_last_block Sample.after_driver = Returns last_block.
Proof.
  split.
  - apply (proj1 (proj2 X11_last_block_exists)). reflexivity.
  - apply (proj2 (proj2 X11_last_block_exists) 1 100%nat Sample.driver_calls).
    vm_compute; reflexivity.
Defined.

(** X12.  The transactions added between two calls of
    [mine_pending_transactions] make up the next block in the order they
    were added, behind the reward of the first call: when the calls
    return, the last block of the chain holds exactly that reward followed
    by those transactions, with the time of the second call as timestamp,
    and the pending list is the reward of the second call. *)
Theorem X12_transactions_of_next_block (fuel : nat) (self self' : Blockchain.t)
    (miner1 miner2 : option string) (now1 now2 : Z) (transactions : list Transaction.t) :
  Client.do_calls fuel self
    (Client.MinePendingTransactions miner1 now1
     :: map Client.AddTransaction transactions
     ++ [Client.MinePendingTransactions miner2 now2]) = Returns self' →
  ∃ block,
    Blockchain.get_last_block self' = Returns block
    ∧ Block.transactions block = Transaction.__init__ None miner1 1 :: transactions
    ∧ Block.timestamp block = now2
    ∧ Blockchain.pending_transactions self' = [Transaction.__init__ None miner2 1].
Proof.
  intros Hrun. cbn [Client.do_calls Client.do_call] in Hrun.
  apply bind_Returns_inv in Hrun as (self1 & Hmine1 & Hrun).
  rewrite CallFacts.do_calls_app, CallFacts.do_calls_add_transactions, bind_Returns in Hrun.
  cbn [Client.do_calls Client.do_call] in Hrun.
  apply bind_Returns_inv in Hrun as (self2 & Hmine2 & Hrun). injection Hrun as <-.
  apply LedgerFacts.mine_pending_transactions_Returns in Hmine1 as (l1 & b1 & _ & _ & ->).
  apply LedgerFacts.mine_pending_transactions_Returns in Hmine2 as (l2 & b2 & _ & Hb2 & ->).
  cbn [Blockchain.chain Blockchain.pending_transactions Blockchain.difficulty
       Blockchain.set_pending_transactions] in *.
  destruct (BlockFacts.mine_block_Returns _ _ _ _ Hb2) as (_ & _ & Htxs & Hts & _).
  exists b2. unfold Blockchain.get_last_block. cbn [Blockchain.chain].
  rewrite last_snoc. split_and!; done.
Qed.

(** The second mining call of the demonstration driver. *)
Lemma X12_witness :
  ∃ block,
    Blockchain.get_last_block Sample.after_driver = Returns block
    ∧ Block.transactions block
      = [Transaction.__init__ None (Some "miner1") 1;
         Transaction.__init__ (Some "C") (Some "D") 10]
    ∧ Block.timestamp block = 1700000060
    ∧ Blockchain.pending_transactions Sample.after_driver
      = [Transaction.__init__ None (Some "miner2") 1].
Proof.
  apply (X12_transactions_of_next_block 100 Sample.before_first_mine Sample.after_driver
           (Some "miner1") (Some "miner2") 1700000000 1700000060
           [Transaction.__init__ (Some "C") (Some "D") 10]).
  vm_compute; reflexivity.
Defined.

Module MoneyFacts.
Import Blockchain Spec.

Lemma all_transactions_add_block (self : t) (block : Block.t) :
  all_transactions (add_block self block) = all_transactions self ++ Block.transactions block.
Proof.
  unfold all_transactions, add_block. cbn [chain set_chain].
  rewrite map_app, concat_app. cbn. by rewrite app_nil_r.
Qed.

Lemma balance_add_block (self : t) (block : Block.t) (address : option string) :
  get_balance (add_block self block) address
  = get_balance self address + sum_Z (map (contribution address) (Block.transactions block)).
Proof.
  rewrite !BalanceFacts.get_balance_sum. unfold balance_sum.
  by rewrite all_transactions_add_block, map_app, BalanceFacts.sum_Z_app.
Qed.

Lemma sum_Z_cons (x : Z) (l : list Z) : sum_Z (x :: l) = x + sum_Z l.
Proof. reflexivity. Qed.

Lemma sum_Z_map_add {A : Type} (f g : A → Z) (l : list A) :
  sum_Z (map (fun a => f a + g a) l) = sum_Z (map f l) + sum_Z (map g l).
Proof.
  induction l as [|a l IH]; [done|]. cbn [map]. rewrite !sum_Z_cons, IH. lia.
Qed.

Lemma sum_Z_map_sub {A : Type} (f g : A → Z) (l : list A) :
  sum_Z (map (fun a => f a - g a) l) = sum_Z (map f l) - sum_Z (map g l).
Proof.
  induction l as [|a l IH]; [done|]. cbn [map]. rewrite !sum_Z_cons, IH. lia.
Qed.

Lemma sum_Z_map_zero {A : Type} (f : A → Z) (l : list A) :
  (∀ a, a ∈ l → f a = 0) → sum_Z (map f l) = 0.
Proof.
  induction l as [|a l IH]; intros H; [done|]. cbn [map]. rewrite sum_Z_cons.
  rewrite (H a) by left. rewrite IH; [done|]. intros a' Ha'. apply H. by right.
Qed.

(** Over addresses without repetition, one of which is [x], the amounts
    counted for [x] add up to the amount. *)
Lemma sum_Z_indicator (x : option string) (v : Z) (addresses : list (option string)) :
  NoDup addresses → x ∈ addresses →
  sum_Z (map (fun a => if bool_decide (x = a) then v else 0) addresses) = v.
Proof.
  induction 1 as [|a l Hnotin Hnodup IH]; intros Hx; [by apply elem_of_nil in Hx|].
  cbn [map]. rewrite sum_Z_cons. case_bool_decide as Hxa.
  - subst a. rewrite sum_Z_map_zero; [lia|].
    intros a' Ha'. rewrite bool_decide_eq_false_2; [done|]. by intros ->.
  - apply elem_of_cons in Hx as [->|Hx]; [done|]. rewrite IH by done. lia.
Qed.

(** One transaction gives as much as it takes. *)
Lemma contribution_sum (transaction : Transaction.t) (addresses : list (option string)) :
  NoDup addresses →
  Transaction.sender transaction ∈ addresses →
  Transaction.receiver transaction ∈ addresses →
  sum_Z (map (fun a => contribution a transaction) addresses) = 0.
Proof.
  intros Hnodup Hs Hr. unfold contribution.
  rewrite (sum_Z_map_sub
             (fun a => if bool_decide (Transaction.receiver transaction = a)
                       then Transaction.amount transaction else 0)
             (fun a => if bool_decide (Transaction.sender transaction = a)
                       then Transaction.amount transaction else 0)).
  rewrite (sum_Z_indicator _ _ _ Hnodup Hr), (sum_Z_indicator _ _ _ Hnodup Hs). lia.
Qed.

Lemma balances_sum (transactions : list Transaction.t) (addresses : list (option string)) :
  NoDup addresses →
  (∀ transaction, transaction ∈ transactions →
     Transaction.sender transaction ∈ addresses
     ∧ Transaction.receiver transaction ∈ addresses) →
  sum_Z (map (fun a => sum_Z (map (contribution a) transactions)) addresses) = 0.
Proof.
  intros Hnodup. induction transactions as [|tx txs IH]; intros Hin.
  - cbn [map]. by apply sum_Z_map_zero.
  - cbn [map].
    rewrite (sum_Z_map_add (fun a => contribution a tx)
               (fun a => sum_Z (map (contribution a) txs))).
    destruct (Hin tx ltac:(left)) as [Hs Hr].
    rewrite contribution_sum, IH by (done || (intros tx' Htx'; apply Hin; by right)). lia.
Qed.

End MoneyFacts.

(** X13.  What appending a block does to a balance.  [add_block] adds
    what the transactions of the block give to and take from the address.
    [mine_pending_transactions], when it returns, adds what the
    transactions pending at the call give and take; the reward it creates
    is pending and is not part of any balance until a later call mines it. *)
Theorem X13_balance_updates (self : Blockchain.t) (address : option string) :
  (∀ block,
     Blockchain.get_balance (Blockchain.add_block self block) address
     = Blockchain.get_balance self address
       + Spec.sum_Z (map (Spec.contribution address) (Block.transactions block)))
  ∧ (∀ fuel miner_address now self',
       Blockchain.mine_pending_transactions fuel self miner_address now = Returns self' →
       Blockchain.get_balance self' address
       = Blockchain.get_balance self address
         + Spec.sum_Z (map (Spec.contribution address)
                           (Blockchain.pending_transactions self))).
Proof.
  split.
  - intros block. apply MoneyFacts.balance_add_block.
  - intros fuel miner now self' Hrun.
    apply LedgerFacts.mine_pending_transactions_Returns in Hrun as (l & b & _ & Hmine & ->).
    destruct (BlockFacts.mine_block_Returns _ _ _ _ Hmine) as (_ & _ & Htxs & _).
    cbn [Block.transactions Block.__init__ Block.set_hash] in Htxs.
    rewrite <- Htxs.
    change (Blockchain.get_balance
              (Blockchain.Build (Blockchain.chain self ++ [b])
                 [Transaction.__init__ None miner 1] (Blockchain.difficulty self)) address)
      with (Blockchain.get_balance (Blockchain.add_block self b) address).
    apply MoneyFacts.balance_add_block.
Qed.

(** The first mining call of the driver: "B" has received 100, and the
    miner's reward is not in its balance. *)
Lemma X13_witness :
  Blockchain.get_balance Sample.after_first_mine (Some "B") = 100
  ∧ Blockchain.get_balance Sample.after_first_mine (Some "miner1") = 0.
Proof.
  split.
  - rewrite (proj2 (X13_balance_updates Sample.before_first_mine (Some "B"))
               100%nat (Some "miner1") 1700000000 Sample.after_first_mine);
      vm_compute; reflexivity.
  - rewrite (proj2 (X13_balance_updates Sample.before_first_mine (Some "miner1"))
               100%nat (Some "miner1") 1700000000 Sample.after_first_mine);
      vm_compute; reflexivity.
Defined.

(** X14.  Balances add up to zero: over any list of distinct addresses,
    [None] included, that holds the sender and the receiver of every
    transaction of the chain, the sum of the balances [get_balance] returns
    is 0.  What the miners have received is what [None] has given. *)
Theorem X14_balances_add_up_to_zero (self : Blockchain.t)
    (addresses : list (option string)) :
  NoDup addresses →
  (∀ transaction, transaction ∈ Spec.all_transactions self →
     Transaction.sender transaction ∈ addresses
     ∧ Transaction.receiver transaction ∈ addresses) →
  Spec.sum_Z (map (Blockchain.get_balance self) addresses) = 0.
Proof.
  intros Hnodup Hin.
  rewrite <- (MoneyFacts.balances_sum (Spec.all_transactions self) addresses Hnodup Hin).
  f_equal. apply map_ext. intros a. apply BalanceFacts.get_balance_sum.
Qed.

(** The ledger the driver leaves, over the six addresses of its chain. *)
Lemma X14_witness :
  Spec.sum_Z (map (Blockchain.get_balance Sample.after_driver)
                  [None; Some "A"; Some "B"; Some "C"; Some "D"; Some "miner1"]) = 0.
Proof.
  apply (X14_balances_add_up_to_zero Sample.after_driver).
  - apply (bool_decide_unpack _). vm_compute. reflexivity.
  - intros tx Htx. vm_compute in Htx.
    repeat (apply elem_of_cons in Htx as [->|Htx];
            [split; apply (bool_decide_unpack _); vm_compute; reflexivity|]).
    by apply elem_of_nil in Htx.
Defined.

Module ZeroFacts.
Import Blockchain Client.

Lemma mine_at_difficulty_0 (fuel : nat) (self : t) (miner_address : option string)
    (now : Z) (last_block : Block.t) :
  difficulty self = 0 →
  get_last_block self = Returns last_block →
  mine_pending_transactions fuel self miner_address now
  = Returns (Build (chain self ++ [Block.__init__ (Block.hash last_block)
                                     (pending_transactions self) now 0])
                   [Transaction.__init__ None miner_address 1] 0).
Proof.
  intros Hd Hlast. unfold mine_pending_transactions. rewrite Hlast, bind_Returns. cbv zeta.
  rewrite Hd, BlockFacts.mine_block_difficulty_0, bind_Returns.
  unfold add_block, set_chain, set_pending_transactions.
  cbn [chain pending_transactions difficulty]. by rewrite Hd.
Qed.

Lemma do_calls_at_difficulty_0 (fuel : nat) (calls : list call) : ∀ self,
  difficulty self = 0 → chain self ≠ [] →
  ∃ self', do_calls fuel self calls = Returns self'.
Proof.
  induction calls as [|c calls IH]; intros self Hd Hne; cbn [do_calls]; [by exists self|].
  destruct c as [tx|b|miner now]; cbn [do_call].
  - rewrite bind_Returns. by apply IH.
  - rewrite bind_Returns. apply IH; [done|]. cbn. by destruct (chain self).
  - destruct (last (chain self)) as [l|] eqn:El; [|by apply last_None in El].
    rewrite (mine_at_difficulty_0 _ _ _ _ l Hd), bind_Returns
      by (unfold get_last_block; by rewrite El).
    apply IH; [done|]. cbn. by destruct (chain self).
Qed.

End ZeroFacts.

(** X15.  A ledger of difficulty 0 never searches.  With a time and
    pending amounts that [str] converts, [mine_pending_transactions] on a
    non-empty chain returns without running the loop of [mine_block],
    appending the block as constructed on the last block, with nonce 0; and
    from a freshly constructed ledger of difficulty 0 every sequence of
    [add_transaction], [add_block] and [mine_pending_transactions] calls
    with such times and amounts returns. *)
Theorem X15_difficulty_zero_never_searches (fuel : nat) :
  (∀ self miner_address now last_block,
     Blockchain.difficulty self = 0 →
     last (Blockchain.chain self) = Some last_block →
     Domain.str_ok now = true →
     forallb Domain.transaction_ok (Blockchain.pending_transactions self) = true →
     Blockchain.mine_pending_transactions fuel self miner_address now
     = Returns (Blockchain.Build
                  (Blockchain.chain self
                   ++ [Block.__init__ (Block.hash last_block)
                         (Blockchain.pending_transactions self) now 0])
                  [Transaction.__init__ None miner_address 1] 0))
  ∧ (∀ calls,
       forallb Domain.call_ok calls = true →
       ∃ self', Client.do_calls fuel (Blockchain.__init__ 0) calls = Returns self').
Proof.
  split.
  - intros self miner now l Hd Hlast _ _. apply ZeroFacts.mine_at_difficulty_0; [done|].
    unfold Blockchain.get_last_block. by rewrite Hlast.
  - intros calls _. by apply ZeroFacts.do_calls_at_difficulty_0.
Qed.

(** One mining call on the fresh ledger of difficulty 0, without fuel, and
    the calls of the driver. *)
Lemma X15_witness :
  Blockchain.mine_pending_transactions 0 (Blockchain.__init__ 0) (Some "miner1") 0
  = Returns Sample.two_blocks
  ∧ ∃ self', Client.do_calls 0 (Blockchain.__init__ 0) Sample.driver_calls = Returns self'.
Proof.
  split.
  - rewrite (proj1 (X15_difficulty_zero_never_searches 0) (Blockchain.__init__ 0)
               (Some "miner1") 0 Blockchain.create_genesis_block);
      vm_compute; reflexivity.
  - apply (proj2 (X15_difficulty_zero_never_searches 0) Sample.driver_calls).
    vm_compute; reflexivity.
Defined.
